(** * TradeBot: the position state machine, the ledger and the signal recorder

    A shallow embedding of the decision logic of the four programs of the
    repository:

    - [Bot]          : [src/bot/trade.py], class [LiveTradingBot];
    - [StreamlitBot] : [src/Streamlit/bot.py], class [LiveTradingBot];
    - [FixedExit]    : [src/backtest/backtrader_test.py], class
                       [FixedExitStrategy];
    - [Enhanced]     : [src/Streamlit/live_trading_bot_streamlit.py], class
                       [EnhancedStrategy].

    Prices, fractions and instants are Python floats and datetimes in the
    source.  They are idealised here as exact rationals ([Q]); an instant is
    a number of seconds.  Everything outside the decision logic (the
    market-data provider, charts, log and CSV files, [time.sleep]) is input
    or is left out: a fetch is a value of type [Fetch], a reading of the
    wall clock is an argument of the operation that reads it. *)

From Stdlib Require Import QArith Qminmax Bool List Lia Lqa.
From Stdlib Require Import PeanoNat.
Import ListNotations.

Local Open Scope Q_scope.

(** ** Shared data model *)

Definition Time := Q.
Definition Price := Q.

(** The strings ['BUY'], ['SELL'], ['HOLD'] returned by [calculate_signals]. *)
Inductive Signal : Type := BUY | SELL | HOLD.

(** The value under the key ['type'] of a trade dictionary. *)
Inductive TradeType : Type := TBuy | TSell.

(** The strings stored under ['reason']. *)
Inductive ExitReason : Type :=
| StopLoss      (* "Stop Loss" *)
| TakeProfit    (* "Take Profit" *)
| TrailingStop  (* "Trailing Stop" *)
| TimeExit      (* "Time Exit" *)
| ManualStop.   (* "Manual Stop" *)

(** [self.position] of the live bots: [None] or the string ['LONG']. *)
Inductive Side : Type := LONG.

(** A trade dictionary: the keys ['profit'] and ['reason'] exist on SELL
    entries only. *)
Record Trade : Type := mkTrade {
  ttype : TradeType;
  price : Price;
  timestamp : Time;
  profit : option Q;
  reason : option ExitReason
}.

(** One row of the data frame returned by the provider: its index and its
    ['Close'] column (the other columns are only plotted). *)
Record Bar : Type := mkBar {
  bar_time : Time;
  bar_close : Price
}.

(** What [stock.history] does: raise, or return a frame (possibly empty). *)
Inductive Fetch : Type :=
| FetchError
| Fetched (rows : list Bar).

Definition TradeType_eqb (a b : TradeType) : bool :=
  match a, b with
  | TBuy, TBuy | TSell, TSell => true
  | _, _ => false
  end.

Definition flip (t : TradeType) : TradeType :=
  match t with TBuy => TSell | TSell => TBuy end.

(** [df.iloc[-1]] on a non-empty frame. *)
Fixpoint last_row (rows : list Bar) : option Bar :=
  match rows with
  | [] => None
  | [r] => Some r
  | _ :: rest => last_row rest
  end.

(** [(t - t0).total_seconds() / 60]; subtracting [None] raises. *)
Definition hold_minutes (t : Time) (t0 : option Time) : option Q :=
  match t0 with
  | Some e => Some ((t - e) / 60)
  | None => None
  end.

(** Python's [a <= b] and [a >= b] on numbers. *)
Definition le (a b : Q) : bool := Qle_bool a b.
Definition ge (a b : Q) : bool := Qle_bool b a.
Definition gt (a b : Q) : bool := negb (Qle_bool a b).

(** A ledger alternates when its types read [expect], [flip expect], ... *)
Fixpoint alternates (expect : TradeType) (l : list Trade) : bool :=
  match l with
  | [] => true
  | t :: rest => TradeType_eqb (ttype t) expect && alternates (flip expect) rest
  end.

(** [trades[-1]], when the ledger is not empty. *)
Fixpoint last_trade (l : list Trade) : option Trade :=
  match l with
  | [] => None
  | [t] => Some t
  | _ :: rest => last_trade rest
  end.

Definition last_type (l : list Trade) : option TradeType :=
  option_map ttype (last_trade l).

Definition ends_in_buy (l : list Trade) : bool :=
  match last_type l with
  | Some TBuy => true
  | _ => false
  end.

Definition count_type (k : TradeType) (l : list Trade) : nat :=
  length (filter (fun t => TradeType_eqb (ttype t) k) l).

(** The markers a ledger gives rise to, per action type. *)
Definition markers (k : TradeType) (l : list Trade) : list (Time * Price) :=
  map (fun t => (timestamp t, price t))
      (filter (fun t => TradeType_eqb (ttype t) k) l).

(** ** [src/bot/trade.py] *)

Module Bot.

Record LiveTradingBot : Type := mkBot {
  stop_loss_percent : Q;
  take_profit_percent : Q;
  max_hold_minutes : Q;
  interval_minutes : Q;
  position : option Side;
  entry_price : Price;
  entry_time : option Time;
  data : list Bar;
  buy_signals : list (Time * Price);
  sell_signals : list (Time * Price);
  trades : list Trade;
  is_running : bool
}.

(** [__init__]; [one_minute] is the test [interval == '1m'].  The body has
    no check and no [raise]: the result type records that. *)
Inductive Constructed : Type :=
| Engine (b : LiveTradingBot)
| ConfigurationError.

Definition new_bot (stop_loss take_profit max_hold : Q) (one_minute : bool)
  : LiveTradingBot :=
  {|
    stop_loss_percent := stop_loss / 100;
    take_profit_percent := take_profit / 100;
    max_hold_minutes := max_hold;
    interval_minutes := if one_minute then 1 else 15;
    position := None;
    entry_price := 0;
    entry_time := None;
    data := [];
    buy_signals := [];
    sell_signals := [];
    trades := [];
    is_running := false
  |}.

Definition init (stop_loss take_profit max_hold : Q) (one_minute : bool)
  : Constructed :=
  Engine (new_bot stop_loss take_profit max_hold one_minute).

Definition set_data (b : LiveTradingBot) (d : list Bar) : LiveTradingBot :=
  mkBot (stop_loss_percent b) (take_profit_percent b) (max_hold_minutes b)
        (interval_minutes b) (position b) (entry_price b) (entry_time b)
        d (buy_signals b) (sell_signals b) (trades b) (is_running b).

Definition set_running (b : LiveTradingBot) (r : bool) : LiveTradingBot :=
  mkBot (stop_loss_percent b) (take_profit_percent b) (max_hold_minutes b)
        (interval_minutes b) (position b) (entry_price b) (entry_time b)
        (data b) (buy_signals b) (sell_signals b) (trades b) r.

(** [get_live_data]: an exception of the provider is caught and leaves
    [self.data] as it was. *)
Definition get_live_data (f : Fetch) (b : LiveTradingBot) : LiveTradingBot :=
  match f with
  | FetchError => b
  | Fetched rows => set_data b rows
  end.

(** The threshold of the time exit, in minutes. *)
Definition max_hold_duration (b : LiveTradingBot) : Q :=
  max_hold_minutes b * interval_minutes b.

Definition stop_loss_hit (b : LiveTradingBot) (p : Price) : bool :=
  le p (entry_price b * (1 - stop_loss_percent b)).

Definition take_profit_hit (b : LiveTradingBot) (p : Price) : bool :=
  ge p (entry_price b * (1 + take_profit_percent b)).

Definition calculate_signals (b : LiveTradingBot) (current_price : Price)
  (ts : Time) : option Signal :=
  match position b with
  | None => Some BUY
  | Some LONG =>
      if stop_loss_hit b current_price then Some SELL
      else if take_profit_hit b current_price then Some SELL
      else
        match hold_minutes ts (entry_time b) with
        | None => None
        | Some hold_time =>
            if ge hold_time (max_hold_minutes b * interval_minutes b)
            then Some SELL else Some HOLD
        end
  end.

(** The reason [execute_trade] computes for a SELL. *)
Definition exit_reason (b : LiveTradingBot) (current_price : Price)
  : ExitReason :=
  if take_profit_hit b current_price then TakeProfit
  else if stop_loss_hit b current_price then StopLoss
  else TimeExit.

Definition execute_trade (b : LiveTradingBot) (signal : Signal)
  (current_price : Price) (ts : Time) : option LiveTradingBot :=
  match signal, position b with
  | BUY, None =>
      Some (mkBot (stop_loss_percent b) (take_profit_percent b)
                  (max_hold_minutes b) (interval_minutes b)
                  (Some LONG) current_price (Some ts) (data b)
                  (buy_signals b ++ [(ts, current_price)])
                  (sell_signals b)
                  (trades b ++ [mkTrade TBuy current_price ts None None])
                  (is_running b))
  | SELL, Some LONG =>
      match hold_minutes ts (entry_time b) with
      | None => None
      | Some _ =>
          Some (mkBot (stop_loss_percent b) (take_profit_percent b)
                      (max_hold_minutes b) (interval_minutes b)
                      None (entry_price b) (entry_time b) (data b)
                      (buy_signals b)
                      (sell_signals b ++ [(ts, current_price)])
                      (trades b ++
                         [mkTrade TSell current_price ts
                                  (Some (current_price - entry_price b))
                                  (Some (exit_reason b current_price))])
                      (is_running b))
      end
  | _, _ => Some b
  end.

(** One pass through the body of the [while] loop of [run]; an exception
    raised in it is caught by the loop's own [except]. *)
Definition run_iteration (f : Fetch) (b : LiveTradingBot) : LiveTradingBot :=
  let b1 := get_live_data f b in
  match last_row (data b1) with
  | None => b1
  | Some bar =>
      match calculate_signals b1 (bar_close bar) (bar_time bar) with
      | None => b1
      | Some signal =>
          match execute_trade b1 signal (bar_close bar) (bar_time bar) with
          | None => b1
          | Some b2 => b2
          end
      end
  end.

(** The first statement of [run]. *)
Definition start (b : LiveTradingBot) : LiveTradingBot := set_running b true.

(** [stop]: [now_signal] and [now_trade] are the values of the two calls of
    [datetime.now()] whose results are stored. *)
Definition stop (now_signal now_trade : Time) (b : LiveTradingBot)
  : LiveTradingBot :=
  match position b, last_row (data b) with
  | Some LONG, Some bar =>
      mkBot (stop_loss_percent b) (take_profit_percent b)
            (max_hold_minutes b) (interval_minutes b)
            None (entry_price b) (entry_time b) (data b)
            (buy_signals b)
            (sell_signals b ++ [(now_signal, bar_close bar)])
            (trades b ++
               [mkTrade TSell (bar_close bar) now_trade
                        (Some (bar_close bar - entry_price b))
                        (Some ManualStop)])
            false
  | _, _ => set_running b false
  end.

End Bot.

(** ** [src/Streamlit/bot.py] *)

Module StreamlitBot.

Record LiveTradingBot : Type := mkBot {
  stop_loss_percent : Q;
  take_profit_percent : Q;
  max_hold_minutes : Q;
  position : option Side;
  entry_price : Price;
  entry_time : option Time;
  data : list Bar;
  buy_signals : list (Time * Price);
  sell_signals : list (Time * Price);
  trades : list Trade;
  is_running : bool
}.

Inductive Constructed : Type :=
| Engine (b : LiveTradingBot)
| ConfigurationError.

Definition new_bot (stop_loss take_profit max_hold : Q) : LiveTradingBot :=
  {|
    stop_loss_percent := stop_loss / 100;
    take_profit_percent := take_profit / 100;
    max_hold_minutes := max_hold;
    position := None;
    entry_price := 0;
    entry_time := None;
    data := [];
    buy_signals := [];
    sell_signals := [];
    trades := [];
    is_running := false
  |}.

Definition init (stop_loss take_profit max_hold : Q) : Constructed :=
  Engine (new_bot stop_loss take_profit max_hold).

Definition set_data (b : LiveTradingBot) (d : list Bar) : LiveTradingBot :=
  mkBot (stop_loss_percent b) (take_profit_percent b) (max_hold_minutes b)
        (position b) (entry_price b) (entry_time b)
        d (buy_signals b) (sell_signals b) (trades b) (is_running b).

Definition set_running (b : LiveTradingBot) (r : bool) : LiveTradingBot :=
  mkBot (stop_loss_percent b) (take_profit_percent b) (max_hold_minutes b)
        (position b) (entry_price b) (entry_time b)
        (data b) (buy_signals b) (sell_signals b) (trades b) r.

Definition get_live_data (f : Fetch) (b : LiveTradingBot) : LiveTradingBot :=
  match f with
  | FetchError => b
  | Fetched rows => set_data b rows
  end.

Definition stop_loss_hit (b : LiveTradingBot) (p : Price) : bool :=
  le p (entry_price b * (1 - stop_loss_percent b)).

Definition take_profit_hit (b : LiveTradingBot) (p : Price) : bool :=
  ge p (entry_price b * (1 + take_profit_percent b)).

Definition calculate_signals (b : LiveTradingBot) (current_price : Price)
  (ts : Time) : option Signal :=
  match position b with
  | None => Some BUY
  | Some LONG =>
      if stop_loss_hit b current_price then Some SELL
      else if take_profit_hit b current_price then Some SELL
      else
        match hold_minutes ts (entry_time b) with
        | None => None
        | Some hold_time =>
            if ge hold_time (max_hold_minutes b)
            then Some SELL else Some HOLD
        end
  end.

(** The conditional expression that names the reason of a SELL. *)
Definition exit_reason (b : LiveTradingBot) (current_price : Price)
  : ExitReason :=
  if take_profit_hit b current_price then TakeProfit else StopLoss.

Definition execute_trade (b : LiveTradingBot) (signal : Signal)
  (current_price : Price) (ts : Time) : LiveTradingBot :=
  match signal, position b with
  | BUY, None =>
      mkBot (stop_loss_percent b) (take_profit_percent b)
            (max_hold_minutes b)
            (Some LONG) current_price (Some ts) (data b)
            (buy_signals b ++ [(ts, current_price)])
            (sell_signals b)
            (trades b ++ [mkTrade TBuy current_price ts None None])
            (is_running b)
  | SELL, Some LONG =>
      mkBot (stop_loss_percent b) (take_profit_percent b)
            (max_hold_minutes b)
            None (entry_price b) (entry_time b) (data b)
            (buy_signals b)
            (sell_signals b ++ [(ts, current_price)])
            (trades b ++
               [mkTrade TSell current_price ts
                        (Some (current_price - entry_price b))
                        (Some (exit_reason b current_price))])
            (is_running b)
  | _, _ => b
  end.

(** One pass through the body of the [while] loop of [run]; nothing catches
    an exception here, so [None] ends the loop. *)
Definition run_iteration (f : Fetch) (b : LiveTradingBot)
  : option LiveTradingBot :=
  let b1 := get_live_data f b in
  match last_row (data b1) with
  | None => Some b1
  | Some bar =>
      match calculate_signals b1 (bar_close bar) (bar_time bar) with
      | None => None
      | Some signal =>
          Some (execute_trade b1 signal (bar_close bar) (bar_time bar))
      end
  end.

Definition start (b : LiveTradingBot) : LiveTradingBot := set_running b true.

(** [stop] clears the flag and writes a log line. *)
Definition stop (b : LiveTradingBot) : LiveTradingBot := set_running b false.

End StreamlitBot.

(** ** The backtest strategies

    Backtrader calls [next] once per bar.  What the framework supplies on
    that bar is the argument [Tick]: whether the broker holds a position
    ([self.position]), the close, the bar's instant and the current values
    of the indicators. *)

Record Tick : Type := mkTick {
  has_position : bool;
  close : Price;
  datetime : Time;
  ema_short : Q;
  ema_long : Q;
  rsi : Q;
  atr : Q
}.

(** An entry of [self.trades] of a strategy: one round trip. *)
Record RoundTrip : Type := mkRoundTrip {
  buy_time : Time;
  buy_price : Price;
  sell_time : Time;
  sell_price : Price;
  rt_reason : ExitReason
}.

Inductive Order : Type := OBuy | OSell.

(** *** [src/backtest/backtrader_test.py] *)

Module FixedExit.

Record Params : Type := mkParams {
  stop_loss_percent : Q;
  take_profit_percent : Q;
  max_hold_minutes : Q
}.

(** [entry_price] and [entry_time] are [None] until the first buy and are
    assigned together. *)
Record Entry : Type := mkEntry {
  entry_price : Price;
  entry_time : Time
}.

Record State : Type := mkState {
  entry : option Entry;
  trades : list RoundTrip
}.

Definition init : State := mkState None [].

(** The [if]/[elif]/[elif] chain of [next]. *)
Definition exit_reason (p : Params) (e : Entry) (k : Tick)
  : option ExitReason :=
  let hold_time := (datetime k - entry_time e) / 60 in
  if le (close k) (entry_price e * (1 - stop_loss_percent p))
  then Some StopLoss
  else if ge (close k) (entry_price e * (1 + take_profit_percent p))
  then Some TakeProfit
  else if ge hold_time (max_hold_minutes p)
  then Some TimeExit
  else None.

(** [next]: the new state and the order placed on this bar; [None] when the
    body raises. *)
Definition next (p : Params) (s : State) (k : Tick)
  : option (State * option Order) :=
  if negb (has_position k) then
    Some (mkState (Some (mkEntry (close k) (datetime k))) (trades s),
          Some OBuy)
  else
    match entry s with
    | None => None
    | Some e =>
        match exit_reason p e k with
        | Some r =>
            Some (mkState (entry s)
                    (trades s ++
                       [mkRoundTrip (entry_time e) (entry_price e)
                                    (datetime k) (close k) r]),
                  Some OSell)
        | None => Some (s, None)
        end
    end.

End FixedExit.

(** *** [src/Streamlit/live_trading_bot_streamlit.py] *)

Module Enhanced.

Record Params : Type := mkParams {
  atr_multiplier : Q;
  max_hold_minutes : Q;
  trailing_percent : Q
}.

(** The attributes the buy branch assigns together; before the first buy
    they do not exist ([trailing_stop] is [None]). *)
Record Entry : Type := mkEntry {
  entry_price : Price;
  entry_time : Time;
  stop_loss : Price;
  take_profit : Price;
  trailing_stop : Price
}.

Record State : Type := mkState {
  entry : option Entry;
  buy_signals : list (Time * Price);
  sell_signals : list (Time * Price);
  trades : list RoundTrip
}.

Definition init : State := mkState None [] [] [].

(** The test of the buy branch. *)
Definition buy_condition (k : Tick) : bool :=
  gt (ema_short k) (ema_long k) && gt 30 (rsi k).

(** The entry written by the buy branch. *)
Definition open_entry (p : Params) (k : Tick) : Entry :=
  mkEntry (close k) (datetime k)
          (close k - atr k * atr_multiplier p)
          (close k + atr k * atr_multiplier p)
          (close k * (1 - trailing_percent p)).

(** "Trailing Stop-Loss Adjustment". *)
Definition adjust_trailing (p : Params) (e : Entry) (k : Tick) : Entry :=
  if gt (close k) (entry_price e) && gt (close k) (trailing_stop e)
  then mkEntry (entry_price e) (entry_time e) (stop_loss e) (take_profit e)
               (Qmax (trailing_stop e) (close k * (1 - trailing_percent p)))
  else e.

(** "Exit conditions": the price chain, then the time test, which is an
    [if] of its own. *)
Definition price_exit (e : Entry) (k : Tick) : option ExitReason :=
  if le (close k) (stop_loss e) then Some StopLoss
  else if ge (close k) (take_profit e) then Some TakeProfit
  else if le (close k) (trailing_stop e) then Some TrailingStop
  else None.

Definition exit_reason (p : Params) (e : Entry) (k : Tick)
  : option ExitReason :=
  let exit_reason := price_exit e k in
  let hold_time := (datetime k - entry_time e) / 60 in
  if ge hold_time (max_hold_minutes p) then Some TimeExit
  else exit_reason.

Definition next (p : Params) (s : State) (k : Tick)
  : option (State * option Order) :=
  if negb (has_position k) then
    if buy_condition k then
      let e := open_entry p k in
      Some (mkState (Some e)
                    (buy_signals s ++ [(entry_time e, entry_price e)])
                    (sell_signals s) (trades s),
            Some OBuy)
    else Some (s, None)
  else
    match entry s with
    | None => None
    | Some e0 =>
        let e := adjust_trailing p e0 k in
        match exit_reason p e k with
        | Some r =>
            Some (mkState (Some e) (buy_signals s)
                    (sell_signals s ++ [(datetime k, close k)])
                    (trades s ++
                       [mkRoundTrip (entry_time e) (entry_price e)
                                    (datetime k) (close k) r]),
                  Some OSell)
        | None => Some (mkState (Some e) (buy_signals s) (sell_signals s)
                                (trades s), None)
        end
    end.

(** [next] over consecutive bars, the orders left aside. *)
Fixpoint long_bars (p : Params) (s : State) (ks : list Tick)
  : option State :=
  match ks with
  | [] => Some s
  | k :: rest =>
      match next p s k with
      | Some (s', _) => long_bars p s' rest
      | None => None
      end
  end.

End Enhanced.

(** ** Reachable engines *)

Module BotReach.
Import Bot.

(** The states an engine of [src/bot/trade.py] can be in: it is built by
    [__init__] and then driven by [run], by direct calls of [execute_trade]
    and by [stop], in any order. *)
Inductive reachable : LiveTradingBot -> Prop :=
| reach_init : forall sl tp mh one_minute b,
    init sl tp mh one_minute = Engine b -> reachable b
| reach_start : forall b, reachable b -> reachable (start b)
| reach_iteration : forall f b, reachable b -> reachable (run_iteration f b)
| reach_execute : forall b signal p t b',
    reachable b -> execute_trade b signal p t = Some b' -> reachable b'
| reach_stop : forall n1 n2 b, reachable b -> reachable (stop n1 n2 b).

End BotReach.

Module StreamlitReach.
Import StreamlitBot.

Inductive reachable : LiveTradingBot -> Prop :=
| reach_init : forall sl tp mh b,
    init sl tp mh = Engine b -> reachable b
| reach_start : forall b, reachable b -> reachable (start b)
| reach_iteration : forall f b b',
    reachable b -> run_iteration f b = Some b' -> reachable b'
| reach_execute : forall b signal p t,
    reachable b -> reachable (execute_trade b signal p t)
| reach_stop : forall b, reachable b -> reachable (stop b).

(** The markers of an engine of [src/Streamlit/bot.py] are exactly those of
    its ledger, instants included. *)
Definition markers_match (b : LiveTradingBot) : Prop :=
  buy_signals b = markers TBuy (trades b) /\
  sell_signals b = markers TSell (trades b).

End StreamlitReach.

(** ** Properties of ledgers *)

(** The type the next entry of an alternating ledger must have. *)
Definition expected_next (expect : TradeType) (l : list Trade) : TradeType :=
  match last_type l with
  | None => expect
  | Some k => flip k
  end.

(** [R] relates every entry of the ledger to the one after it. *)
Definition neighbours (R : Trade -> Trade -> Prop) (l : list Trade) : Prop :=
  forall i x y, nth_error l i = Some x -> nth_error l (S i) = Some y -> R x y.

(** ** What one operation of the engine of [src/bot/trade.py] does *)

Module BotSteps.
Import Bot.

(** Every operation leaves the position alone, opens one or closes one. *)
Inductive transition (b b' : LiveTradingBot) : Prop :=
| tr_same :
    position b' = position b ->
    entry_price b' = entry_price b -> entry_time b' = entry_time b ->
    trades b' = trades b ->
    buy_signals b' = buy_signals b -> sell_signals b' = sell_signals b ->
    transition b b'
| tr_open : forall p t,
    position b = None -> position b' = Some LONG ->
    entry_price b' = p -> entry_time b' = Some t ->
    trades b' = trades b ++ [mkTrade TBuy p t None None] ->
    buy_signals b' = buy_signals b ++ [(t, p)] ->
    sell_signals b' = sell_signals b ->
    transition b b'
| tr_close : forall p t t' r,
    position b = Some LONG -> position b' = None ->
    entry_price b' = entry_price b -> entry_time b' = entry_time b ->
    trades b' =
      trades b ++ [mkTrade TSell p t (Some (p - entry_price b)) (Some r)] ->
    buy_signals b' = buy_signals b ->
    sell_signals b' = sell_signals b ++ [(t', p)] ->
    transition b b'.

(** The ledger alternates from a BUY, the side says whether it ends in one,
    and the BUYs outnumber the SELLs by the open position. *)
Record ledger_invariant (b : LiveTradingBot) : Prop := {
  inv_alternates : alternates TBuy (trades b) = true;
  inv_side : position b = Some LONG <-> ends_in_buy (trades b) = true;
  inv_count :
    count_type TBuy (trades b) =
    (count_type TSell (trades b) +
       match position b with Some LONG => 1 | None => 0 end)%nat
}.

(** While a position is open the ledger ends in the BUY that opened it,
    and that BUY holds the entry price and time; every SELL carries the
    difference to the entry before it. *)
Definition profit_of_pair (x y : Trade) : Prop :=
  ttype y = TSell -> profit y = Some (price y - price x).

Record entry_invariant (b : LiveTradingBot) : Prop := {
  inv_entry :
    position b = Some LONG ->
    exists buy, last_trade (trades b) = Some buy /\ ttype buy = TBuy /\
                entry_price b = price buy /\
                entry_time b = Some (timestamp buy);
  inv_profit : neighbours profit_of_pair (trades b)
}.

(** The markers are those of the ledger; for SELLs the prices are, the
    instants being those of the markers' own clock readings in [stop]. *)
Record signal_invariant (b : LiveTradingBot) : Prop := {
  inv_buy_signals : buy_signals b = markers TBuy (trades b);
  inv_sell_prices :
    map snd (sell_signals b) = map snd (markers TSell (trades b))
}.

(** The markers are exactly those of the ledger, instants included. *)
Definition markers_match (b : LiveTradingBot) : Prop :=
  buy_signals b = markers TBuy (trades b) /\
  sell_signals b = markers TSell (trades b).

End BotSteps.

(** ** The priority rule of the specification

    Section 4.1 of the specification, in its own words: stop loss, take
    profit, trailing stop, time exit, the first that matches.  The reasons
    the programs record are compared with it below. *)

Module Spec.

Definition first_match (stop_loss_hit take_profit_hit trailing_hit
                        time_hit : bool) : option ExitReason :=
  if stop_loss_hit then Some StopLoss
  else if take_profit_hit then Some TakeProfit
  else if trailing_hit then Some TrailingStop
  else if time_hit then Some TimeExit
  else None.

End Spec.

(** ** Sample runs

    The engine of the [__main__] block of [src/bot/trade.py]: stop loss
    0.1 %, take profit 0.2 %, five minutes, interval ['1m']; prices around
    100, instants in seconds. *)

Module BotDemo.
Import Bot.

Definition flat0 : LiveTradingBot := new_bot (1#10) (2#10) 5 true.

(** After the first bar: bought at 100 at instant 0. *)
Definition long1 : LiveTradingBot :=
  run_iteration (Fetched [mkBar 0 100]) flat0.

(** After a second bar one minute later, closing at 99.8: sold. *)
Definition flat2 : LiveTradingBot :=
  run_iteration (Fetched [mkBar 0 100; mkBar 60 (998#10)]) long1.

End BotDemo.

(** The same configuration for the engine of [src/Streamlit/bot.py]. *)

Module StreamlitDemo.
Import StreamlitBot.

Definition flat0 : LiveTradingBot := new_bot (1#10) (2#10) 5.

(** The loop body applied to a state that may already have raised. *)
Definition then_iteration (f : Fetch) (ob : option LiveTradingBot)
  : option LiveTradingBot :=
  match ob with
  | Some b => run_iteration f b
  | None => None
  end.

(** Bought at 100 at instant 0. *)
Definition long1 : option LiveTradingBot :=
  run_iteration (Fetched [mkBar 0 100]) flat0.

End StreamlitDemo.

(** A backtest of [EnhancedStrategy]: ATR multiplier 2, sixty minutes, a
    trailing stop of 1 %; a buy at 100 with an ATR of 1, which sets the stop
    loss to 98, the take profit to 102 and the trailing stop to 99. *)

Module EnhancedDemo.
Import Enhanced.

Definition params : Params := mkParams 2 60 (1#100).

Definition buy_bar : Tick := mkTick false 100 0 11 10 25 1.

(** Ten minutes later, at 101. *)
Definition rising_bar : Tick := mkTick true 101 600 11 10 50 1.

(** Twenty minutes later, at 100.5. *)
Definition falling_bar : Tick := mkTick true (1005#10) 1200 11 10 50 1.

(** Sixty minutes after the buy, at 97. *)
Definition late_low_bar : Tick := mkTick true 97 3600 11 10 50 1.

End EnhancedDemo.

(** ** Further parts of the programs *)

(** *** What one operation of the engine of [src/Streamlit/bot.py] does *)

Module StreamlitSteps.
Import StreamlitBot.

Inductive transition (b b' : LiveTradingBot) : Prop :=
| tr_same :
    position b' = position b ->
    entry_price b' = entry_price b -> entry_time b' = entry_time b ->
    trades b' = trades b ->
    transition b b'
| tr_open : forall p t,
    position b = None -> position b' = Some LONG ->
    entry_price b' = p -> entry_time b' = Some t ->
    trades b' = trades b ++ [mkTrade TBuy p t None None] ->
    transition b b'
| tr_close : forall p t r,
    position b = Some LONG -> position b' = None ->
    entry_price b' = entry_price b -> entry_time b' = entry_time b ->
    trades b' =
      trades b ++ [mkTrade TSell p t (Some (p - entry_price b)) (Some r)] ->
    transition b b'.

Record ledger_invariant (b : LiveTradingBot) : Prop := {
  inv_alternates : alternates TBuy (trades b) = true;
  inv_side : position b = Some LONG <-> ends_in_buy (trades b) = true;
  inv_count :
    count_type TBuy (trades b) =
    (count_type TSell (trades b) +
       match position b with Some LONG => 1 | None => 0 end)%nat
}.

Record entry_invariant (b : LiveTradingBot) : Prop := {
  inv_entry :
    position b = Some LONG ->
    exists buy, last_trade (trades b) = Some buy /\ ttype buy = TBuy /\
                entry_price b = price buy /\
                entry_time b = Some (timestamp buy);
  inv_profit :
    neighbours (fun x y => ttype y = TSell ->
                  profit y = Some (price y - price x)) (trades b)
}.

End StreamlitSteps.

(** *** [plot_candlestick] of [src/bot/trade.py]

    The chart is what is handed to [mpf.plot]: the candles and one marker
    series per action type, a series holding a price or NaN ([None]) for
    every candle.  An instant is in the index when it equals the instant of
    a candle. *)

Module BotChart.
Import Bot.

(** [df.tail(n)] and the slice [l[-n:]], for a positive [n]. *)
Definition tail {A : Type} (n : nat) (l : list A) : list A :=
  skipn (length l - n) l.

Definition Series : Type := list (Time * option Price).

(** [pd.Series(index=..., dtype=float)]. *)
Definition empty_series (index : list Time) : Series :=
  map (fun t => (t, None)) index.

(** [timestamp in series.index]. *)
Definition in_index (t : Time) (s : Series) : bool :=
  existsb (fun r => Qeq_bool (fst r) t) s.

(** [series.loc[timestamp] = price]. *)
Definition set_at (t : Time) (p : Price) (s : Series) : Series :=
  map (fun r => if Qeq_bool (fst r) t then (fst r, Some p) else r) s.

(** The [for] loop over the last ten signals. *)
Definition plot_signals (signals : list (Time * Price))
  (plot_data : list Bar) : Series :=
  fold_left (fun s tp => if in_index (fst tp) s
                         then set_at (fst tp) (snd tp) s else s)
            (tail 10 signals)
            (empty_series (map bar_time plot_data)).

(** [series.notna().any()]. *)
Definition notna_any (s : Series) : bool :=
  existsb (fun r => match snd r with Some _ => true | None => false end) s.

Inductive Marker : Type := BuyMarker | SellMarker.

Record Chart : Type := mkChart {
  candles : list Bar;
  buy_plot : Series;
  sell_plot : Series;
  addplots : list Marker
}.

(** [plot_candlestick]: [None] when it returns before drawing. *)
Definition plot_candlestick (b : LiveTradingBot) : option Chart :=
  match data b with
  | [] => None
  | _ =>
      let plot_data := tail 50 (data b) in
      let buy_plot := plot_signals (buy_signals b) plot_data in
      let sell_plot := plot_signals (sell_signals b) plot_data in
      Some (mkChart plot_data buy_plot sell_plot
              ((if notna_any buy_plot then [BuyMarker] else []) ++
               (if notna_any sell_plot then [SellMarker] else [])))
  end.

End BotChart.

(** *** Runs of [FixedExitStrategy] of [src/backtest/backtrader_test.py] *)

Module FixedExitRun.
Import FixedExit.

(** Backtrader calling [next] bar after bar; [None] once a call raised. *)
Fixpoint run (p : Params) (s : State) (ks : list Tick) : option State :=
  match ks with
  | [] => Some s
  | k :: rest =>
      match next p s k with
      | Some (s', _) => run p s' rest
      | None => None
      end
  end.



End FixedExitRun.

(** *** [plot_trades] of [src/backtest/backtrader_test.py]

    The positions of the buy and the sell instant in the index of the data
    ([get_loc], or the nearest position) are arguments. *)

Module PlotTrades.





End PlotTrades.

(** *** Markers of round trips and of bars *)

(** The sale and the purchase of a round trip, as (instant, price). *)
Definition sell_marker (t : RoundTrip) : Time * Price :=
  (sell_time t, sell_price t).

Definition purchase_marker (t : RoundTrip) : Time * Price :=
  (buy_time t, buy_price t).

(** A bar as (instant, close), and whether it finds no position. *)
Definition buy_marker (k : Tick) : Time * Price := (datetime k, close k).

Definition flat (k : Tick) : bool := negb (has_position k).

(** *** [src/live_trading_bot_streamlit.py]

    [FixedExitStrategy] as the Streamlit page has it, with the two marker
    lists, and the summary the page computes from a finished backtest. *)

Module FixedExitPage.

Record Params : Type := mkParams {
  stop_loss_percent : Q;
  take_profit_percent : Q;
  max_hold_minutes : Q
}.

Record Entry : Type := mkEntry {
  entry_price : Price;
  entry_time : Time
}.

Record State : Type := mkState {
  entry : option Entry;
  trades : list RoundTrip;
  buy_signals : list (Time * Price);
  sell_signals : list (Time * Price)
}.

Definition init : State := mkState None [] [] [].

Definition exit_reason (p : Params) (e : Entry) (k : Tick)
  : option ExitReason :=
  let hold_time := (datetime k - entry_time e) / 60 in
  if le (close k) (entry_price e * (1 - stop_loss_percent p))
  then Some StopLoss
  else if ge (close k) (entry_price e * (1 + take_profit_percent p))
  then Some TakeProfit
  else if ge hold_time (max_hold_minutes p)
  then Some TimeExit
  else None.

Definition next (p : Params) (s : State) (k : Tick)
  : option (State * option Order) :=
  if negb (has_position k) then
    Some (mkState (Some (mkEntry (close k) (datetime k))) (trades s)
                  (buy_signals s ++ [(datetime k, close k)])
                  (sell_signals s),
          Some OBuy)
  else
    match entry s with
    | None => None
    | Some e =>
        match exit_reason p e k with
        | Some r =>
            Some (mkState (entry s)
                    (trades s ++
                       [mkRoundTrip (entry_time e) (entry_price e)
                                    (datetime k) (close k) r])
                    (buy_signals s)
                    (sell_signals s ++ [(datetime k, close k)]),
                  Some OSell)
        | None => Some (s, None)
        end
    end.

Fixpoint run (p : Params) (s : State) (ks : list Tick) : option State :=
  match ks with
  | [] => Some s
  | k :: rest =>
      match next p s k with
      | Some (s', _) => run p s' rest
      | None => None
      end
  end.

(** [len(strat.trades)] and
    [sum(trade['sell_price'] - trade['buy_price'] for trade in strat.trades)]. *)
Definition total_trades (s : State) : nat := length (trades s).

Definition total_profit (s : State) : Q :=
  fold_left Qplus (map (fun t => sell_price t - buy_price t) (trades s)) 0.

End FixedExitPage.

(** *** Sample states *)

Module StreamlitSamples.
Import StreamlitBot.

(** The engine of [StreamlitDemo] after it bought at 100 at instant 0. *)
Definition bought : LiveTradingBot :=
  execute_trade (set_data StreamlitDemo.flat0 [mkBar 0 100]) BUY 100 0.

(** And after it sold at 100.3 one minute later. *)
Definition sold : LiveTradingBot :=
  execute_trade (set_data bought [mkBar 0 100; mkBar 60 (1003#10)])
                SELL (1003#10) 60.

End StreamlitSamples.

(** *** What a recorded reason says about the prices, in [src/bot/trade.py]

    By the tests of [execute_trade], for a SELL [y] that follows the BUY
    [x], with the fractions [s] and [tp] of the engine. *)

Module BotReasons.



End BotReasons.

Module EnhancedSamples.
Import Enhanced.



(** The state after the buy of [EnhancedDemo] and its late low bar. *)
Definition late_exit : State :=
  match long_bars EnhancedDemo.params init
                  [EnhancedDemo.buy_bar; EnhancedDemo.late_low_bar] with
  | Some s => s
  | None => init
  end.

End EnhancedSamples.

(** * Proofs *)

(** ** Ledgers *)

Section Ledger.

Lemma TradeType_eqb_eq (a b : TradeType) :
  TradeType_eqb a b = true <-> a = b.
Proof. destruct a, b; simpl; split; congruence. Qed.

Lemma last_trade_snoc (l : list Trade) (t : Trade) :
  last_trade (l ++ [t]) = Some t.
Proof.
  induction l as [|a l IH]; simpl; [reflexivity|].
  destruct (l ++ [t]) eqn:E; [destruct l; discriminate|exact IH].
Qed.

Lemma last_type_snoc (l : list Trade) (t : Trade) :
  last_type (l ++ [t]) = Some (ttype t).
Proof. unfold last_type. now rewrite last_trade_snoc. Qed.

Lemma last_trade_cons (a : Trade) (l : list Trade) :
  exists x, last_trade (a :: l) = Some x.
Proof.
  revert a. induction l as [|b l IH]; intros a; [now exists a|].
  destruct (IH b) as [x Hx]. exists x. exact Hx.
Qed.

Lemma last_type_cons (a : Trade) (l : list Trade) :
  exists k, last_type (a :: l) = Some k.
Proof.
  destruct (last_trade_cons a l) as [x Hx]. exists (ttype x).
  unfold last_type. now rewrite Hx.
Qed.

Lemma alternates_snoc (l : list Trade) (t : Trade) :
  forall expect,
    alternates expect (l ++ [t]) =
    alternates expect l && TradeType_eqb (ttype t) (expected_next expect l).
Proof.
  induction l as [|a l IH]; intros expect.
  - simpl. unfold expected_next. simpl. now rewrite andb_true_r.
  - simpl app. cbn [alternates]. rewrite IH, <- andb_assoc.
    destruct (TradeType_eqb (ttype a) expect) eqn:Ea; [|reflexivity].
    apply TradeType_eqb_eq in Ea. simpl. f_equal. f_equal.
    unfold expected_next. destruct l as [|b l]; [simpl; now rewrite Ea|].
    destruct (last_type_cons b l) as [k Hk].
    change (last_type (a :: b :: l)) with (last_type (b :: l)).
    now rewrite Hk.
Qed.

Lemma ends_in_buy_snoc (l : list Trade) (t : Trade) :
  ends_in_buy (l ++ [t]) = TradeType_eqb (ttype t) TBuy.
Proof.
  unfold ends_in_buy. rewrite last_type_snoc. now destruct (ttype t).
Qed.

Lemma count_type_snoc (k : TradeType) (l : list Trade) (t : Trade) :
  count_type k (l ++ [t]) =
  (count_type k l + if TradeType_eqb (ttype t) k then 1 else 0)%nat.
Proof.
  unfold count_type. rewrite filter_app, length_app. simpl.
  now destruct (TradeType_eqb (ttype t) k).
Qed.

Lemma markers_snoc (k : TradeType) (l : list Trade) (t : Trade) :
  markers k (l ++ [t]) =
  markers k l ++
    if TradeType_eqb (ttype t) k then [(timestamp t, price t)] else [].
Proof.
  unfold markers. rewrite filter_app, map_app. simpl.
  now destruct (TradeType_eqb (ttype t) k).
Qed.

(** In an alternating ledger neighbours differ. *)
Lemma alternates_neighbours (l : list Trade) :
  forall expect i x y,
    alternates expect l = true ->
    nth_error l i = Some x -> nth_error l (S i) = Some y ->
    ttype x = flip (ttype y).
Proof.
  induction l as [|a l IH]; intros expect i x y Halt Hx Hy.
  - destruct i; discriminate.
  - cbn [alternates] in Halt. apply andb_true_iff in Halt as [Ha Hl].
    destruct i as [|i].
    + simpl in Hx, Hy. injection Hx as <-. destruct l as [|b l]; [discriminate|].
      simpl in Hy. injection Hy as <-.
      cbn [alternates] in Hl. apply andb_true_iff in Hl as [Hb _].
      apply TradeType_eqb_eq in Ha, Hb. rewrite Ha, Hb. now destruct expect.
    + simpl in Hx. change (nth_error l (S i) = Some y) in Hy. eauto.
Qed.

Lemma alternates_head (l : list Trade) (expect : TradeType) (x : Trade) :
  alternates expect l = true -> nth_error l 0 = Some x -> ttype x = expect.
Proof.
  destruct l; simpl; [discriminate|].
  intros H [= <-]. apply andb_true_iff in H as [H _].
  now apply TradeType_eqb_eq.
Qed.

End Ledger.

Lemma neighbours_snoc (R : Trade -> Trade -> Prop) (l : list Trade)
  (t : Trade) :
  neighbours R l ->
  (forall x, last_trade l = Some x -> R x t) ->
  neighbours R (l ++ [t]).
Proof.
  induction l as [|a l IH]; intros Hl Hlast i x y Hx Hy.
  - destruct i; simpl in Hy; [discriminate|destruct i; discriminate].
  - destruct i as [|i].
    + simpl in Hx. injection Hx as <-.
      destruct l as [|b l].
      * simpl in Hy. injection Hy as <-. now apply Hlast.
      * simpl in Hy. injection Hy as <-. now apply (Hl 0%nat).
    + destruct l as [|b l].
      * simpl in Hx. destruct i; discriminate.
      * apply (IH (fun j u v Hu Hv => Hl (S j) u v Hu Hv)
                  (fun u Hu => Hlast u Hu) i x y Hx Hy).
Qed.

(** ** The engine of [src/bot/trade.py] *)

Module BotFacts.
Import Bot BotReach BotSteps.

Lemma transition_refl (b : LiveTradingBot) : transition b b.
Proof. now apply tr_same. Qed.

Lemma transition_execute (b b' : LiveTradingBot) (signal : Signal)
  (p : Price) (t : Time) :
  execute_trade b signal p t = Some b' -> transition b b'.
Proof.
  unfold execute_trade.
  destruct signal, (position b) as [[]|] eqn:Hp; intros H;
    try (injection H as <-; apply transition_refl).
  - injection H as <-. now apply (tr_open _ _ p t).
  - destruct (hold_minutes t (entry_time b)); [|discriminate].
    injection H as <-. now eapply (tr_close _ _ p t t).
Qed.

Lemma transition_get_live_data (f : Fetch) (b : LiveTradingBot) :
  transition b (get_live_data f b).
Proof. destruct f; now apply tr_same. Qed.

Lemma transition_after_fetch (f : Fetch) (b b' : LiveTradingBot) :
  transition (get_live_data f b) b' -> transition b b'.
Proof.
  destruct f; simpl; [easy|].
  intros [| |]; [apply tr_same|eapply tr_open|eapply tr_close];
    simpl in *; eauto.
Qed.

Lemma transition_run_iteration (f : Fetch) (b : LiveTradingBot) :
  transition b (run_iteration f b).
Proof.
  apply (transition_after_fetch f). unfold run_iteration.
  destruct (last_row (data (get_live_data f b))) as [bar|];
    [|apply transition_refl].
  destruct (calculate_signals _ _ _) as [signal|]; [|apply transition_refl].
  destruct (execute_trade _ _ _ _) as [b2|] eqn:He; [|apply transition_refl].
  exact (transition_execute _ _ _ _ _ He).
Qed.

Lemma transition_stop (n1 n2 : Time) (b : LiveTradingBot) :
  transition b (stop n1 n2 b).
Proof.
  unfold stop.
  destruct (position b) as [[]|] eqn:Hp; [|now apply tr_same].
  destruct (last_row (data b)) as [bar|]; [|now apply tr_same].
  now eapply (tr_close _ _ (bar_close bar) n2 n1 ManualStop).
Qed.

Lemma transition_start (b : LiveTradingBot) : transition b (start b).
Proof. now apply tr_same. Qed.

Lemma ledger_invariant_init sl tp mh om b :
  init sl tp mh om = Engine b -> ledger_invariant b.
Proof.
  intros [= <-]. split; simpl; [reflexivity|split; discriminate|reflexivity].
Qed.

Lemma ledger_invariant_transition (b b' : LiveTradingBot) :
  transition b b' -> ledger_invariant b -> ledger_invariant b'.
Proof.
  intros T [Ha Hs Hc].
  destruct T as [Hp _ _ Ht _ _ | p t Hp Hp' _ _ Ht _ _
                | p t t' r Hp Hp' _ _ Ht _ _].
  - split; rewrite ?Hp, ?Ht; assumption.
  - assert (Hn : ends_in_buy (trades b) = false).
    { destruct (ends_in_buy (trades b)) eqn:E; [|reflexivity].
      assert (position b = Some LONG) by now apply Hs. congruence. }
    split; rewrite Ht, ?Hp'.
    + rewrite alternates_snoc, Ha. simpl. unfold expected_next.
      unfold ends_in_buy in Hn.
      destruct (last_type (trades b)) as [[]|]; [discriminate| |]; reflexivity.
    + rewrite ends_in_buy_snoc. simpl. tauto.
    + rewrite !count_type_snoc, Hc, Hp. simpl. lia.
  - assert (Hy : ends_in_buy (trades b) = true) by now apply Hs.
    split; rewrite Ht, ?Hp'.
    + rewrite alternates_snoc, Ha. simpl. unfold expected_next.
      unfold ends_in_buy in Hy.
      destruct (last_type (trades b)) as [[]|]; [reflexivity| |]; discriminate.
    + rewrite ends_in_buy_snoc. simpl. split; discriminate.
    + rewrite !count_type_snoc, Hc, Hp. simpl. lia.
Qed.

(** Each operation is a transition, so what transitions preserve holds of
    every reachable engine. *)
Lemma reachable_ind_transition (P : LiveTradingBot -> Prop) :
  (forall sl tp mh om b, init sl tp mh om = Engine b -> P b) ->
  (forall b b', transition b b' -> P b -> P b') ->
  forall b, reachable b -> P b.
Proof.
  intros Hinit Hstep b Hr.
  induction Hr as [sl tp mh om b Hi | b _ IH | f b _ IH
                  | b signal p t b' _ IH He | n1 n2 b _ IH].
  - eauto.
  - exact (Hstep _ _ (transition_start b) IH).
  - exact (Hstep _ _ (transition_run_iteration f b) IH).
  - exact (Hstep _ _ (transition_execute _ _ _ _ _ He) IH).
  - exact (Hstep _ _ (transition_stop n1 n2 b) IH).
Qed.

Lemma entry_invariant_init sl tp mh om b :
  init sl tp mh om = Engine b -> entry_invariant b.
Proof.
  intros [= <-]. split; simpl; [discriminate|].
  intros [|i] x y; discriminate.
Qed.

Lemma entry_invariant_transition (b b' : LiveTradingBot) :
  transition b b' -> entry_invariant b -> entry_invariant b'.
Proof.
  intros T [He Hn].
  destruct T as [Hp Hep Het Ht _ _ | p t Hp Hp' Hep Het Ht _ _
                | p t t' r Hp Hp' Hep Het Ht _ _].
  - split; rewrite ?Hp, ?Hep, ?Het, ?Ht; assumption.
  - split; rewrite Ht.
    + intros _. rewrite last_trade_snoc. eexists. split; [reflexivity|].
      simpl. now rewrite Hep, Het.
    + apply neighbours_snoc; [assumption|]. intros x _ [=].
  - split; rewrite Ht.
    + congruence.
    + apply neighbours_snoc; [assumption|].
      intros x Hx _. simpl.
      destruct (He Hp) as (buy & Hb & _ & Hprice & _).
      rewrite Hb in Hx. injection Hx as <-. now rewrite Hprice.
Qed.

Lemma signal_invariant_init sl tp mh om b :
  init sl tp mh om = Engine b -> signal_invariant b.
Proof. intros [= <-]. now split. Qed.

Lemma signal_invariant_transition (b b' : LiveTradingBot) :
  transition b b' -> signal_invariant b -> signal_invariant b'.
Proof.
  intros T [Hb Hs].
  destruct T as [_ _ _ Ht Hbs Hss | p t _ _ _ _ Ht Hbs Hss
                | p t t' r _ _ _ _ Ht Hbs Hss];
    split; rewrite ?Ht, ?Hbs, ?Hss, ?markers_snoc, ?map_app; simpl;
    rewrite ?app_nil_r; congruence.
Qed.

Lemma reachable_signal_invariant (b : LiveTradingBot) :
  reachable b -> signal_invariant b.
Proof.
  apply reachable_ind_transition.
  - exact signal_invariant_init.
  - exact signal_invariant_transition.
Qed.

Lemma reachable_ledger_invariant (b : LiveTradingBot) :
  reachable b -> ledger_invariant b.
Proof.
  apply reachable_ind_transition.
  - exact ledger_invariant_init.
  - exact ledger_invariant_transition.
Qed.

Lemma reachable_entry_invariant (b : LiveTradingBot) :
  reachable b -> entry_invariant b.
Proof.
  apply reachable_ind_transition.
  - exact entry_invariant_init.
  - exact entry_invariant_transition.
Qed.

(** A bar processed while LONG either leaves the position as it is or
    closes it at the close of the last fetched row; the entry is kept. *)
Lemma run_iteration_long (f : Fetch) (b : LiveTradingBot) :
  position b = Some LONG ->
  entry_price (run_iteration f b) = entry_price b /\
  entry_time (run_iteration f b) = entry_time b /\
  (position (run_iteration f b) = Some LONG /\
   trades (run_iteration f b) = trades b \/
   exists bar r,
     last_row (data (run_iteration f b)) = Some bar /\
     position (run_iteration f b) = None /\
     trades (run_iteration f b) =
       trades b ++ [mkTrade TSell (bar_close bar) (bar_time bar)
                            (Some (bar_close bar - entry_price b))
                            (Some r)]).
Proof.
  intros Hp. unfold run_iteration.
  set (b1 := get_live_data f b).
  assert (H1 : position b1 = Some LONG /\ entry_price b1 = entry_price b /\
               entry_time b1 = entry_time b /\ trades b1 = trades b)
    by (subst b1; destruct f; simpl; auto).
  destruct H1 as (Hp1 & Hep & Het & Ht).
  destruct (last_row (data b1)) as [bar|] eqn:Hrow; [|now auto].
  destruct (calculate_signals _ _ _) as [signal|]; [|now auto].
  unfold execute_trade. rewrite Hp1.
  destruct signal; try now auto.
  destruct (hold_minutes _ _); [|now auto].
  simpl. repeat split; try assumption.
  right. exists bar, (exit_reason b1 (bar_close bar)).
  now rewrite Hrow, Ht, Hep.
Qed.

(** C4.  In every state an engine of [src/bot/trade.py] can reach, the
    ledger reads BUY, SELL, BUY, SELL, ...: its first entry is a BUY, no
    two neighbours have the same type, the BUYs outnumber the SELLs by one when a position
    is open and by none otherwise, and the side is LONG exactly when the
    ledger ends in a BUY; an iteration of [run], a call of [execute_trade]
    and [stop] lead to states of which the same holds. *)
Theorem ledger_alternates_and_tracks_position (b : LiveTradingBot) :
  reachable b ->
  alternates TBuy (trades b) = true /\
  (forall x, nth_error (trades b) 0 = Some x -> ttype x = TBuy) /\
  neighbours (fun x y => ttype x <> ttype y) (trades b) /\
  (position b = Some LONG <-> ends_in_buy (trades b) = true) /\
  count_type TBuy (trades b) =
    (count_type TSell (trades b) +
       match position b with Some LONG => 1 | None => 0 end)%nat /\
  (forall f, ledger_invariant (run_iteration f b)) /\
  (forall signal p t b',
      execute_trade b signal p t = Some b' -> ledger_invariant b') /\
  (forall n1 n2, ledger_invariant (stop n1 n2 b)).
Proof.
  intros Hr. destruct (reachable_ledger_invariant b Hr) as [Ha Hs Hc].
  split; [exact Ha|].
  split; [intros x Hx; exact (alternates_head _ _ _ Ha Hx)|]. split.
  { intros i x y Hx Hy E.
    pose proof (alternates_neighbours _ _ _ _ _ Ha Hx Hy) as Hf.
    rewrite E in Hf. now destruct (ttype y). }
  split; [exact Hs|]. split; [exact Hc|]. split; [|split].
  - intros f. apply reachable_ledger_invariant. now constructor.
  - intros signal p t b' He.
    apply reachable_ledger_invariant. eapply reach_execute; eauto.
  - intros n1 n2. apply reachable_ledger_invariant. now constructor.
Qed.

Lemma ledger_alternates_and_tracks_position_witness :
  reachable BotDemo.long1 /\
  (position BotDemo.long1 = Some LONG <->
   ends_in_buy (trades BotDemo.long1) = true).
Proof.
  assert (Hr : reachable BotDemo.long1).
  { apply reach_iteration.
    apply (reach_init (1#10) (2#10) 5 true). reflexivity. }
  split; [exact Hr|].
  apply (ledger_alternates_and_tracks_position BotDemo.long1 Hr).
Defined.

(** C7.  In every reachable state each SELL of the ledger follows a BUY and
    its profit is its own price less the price of that BUY, the price at
    which the position was opened.  While the position is open the last
    entry of the ledger is that BUY and holds [entry_price] and
    [entry_time]; a bar processed by [run] changes neither of them, and
    when it sells, the SELL is at the close of the last fetched row with
    that close less the entry price as profit. *)
Theorem sell_profit_and_fixed_entry (b : LiveTradingBot) :
  reachable b ->
  neighbours (fun x y => ttype y = TSell ->
                ttype x = TBuy /\ profit y = Some (price y - price x))
             (trades b) /\
  (position b = Some LONG ->
   (exists buy, last_trade (trades b) = Some buy /\ ttype buy = TBuy /\
                entry_price b = price buy /\
                entry_time b = Some (timestamp buy)) /\
   forall f,
     entry_price (run_iteration f b) = entry_price b /\
     entry_time (run_iteration f b) = entry_time b /\
     (position (run_iteration f b) = Some LONG /\
      trades (run_iteration f b) = trades b \/
      exists bar r,
        last_row (data (run_iteration f b)) = Some bar /\
        position (run_iteration f b) = None /\
        trades (run_iteration f b) =
          trades b ++ [mkTrade TSell (bar_close bar) (bar_time bar)
                               (Some (bar_close bar - entry_price b))
                               (Some r)])).
Proof.
  intros Hr.
  destruct (reachable_entry_invariant b Hr) as [He Hn].
  destruct (reachable_ledger_invariant b Hr) as [Ha _ _].
  split.
  - intros i x y Hx Hy Hs. split; [|exact (Hn i x y Hx Hy Hs)].
    pose proof (alternates_neighbours _ _ _ _ _ Ha Hx Hy) as Hf.
    now rewrite Hf, Hs.
  - intros Hp. split; [exact (He Hp)|].
    intros f. now apply run_iteration_long.
Qed.

Lemma sell_profit_and_fixed_entry_witness :
  reachable BotDemo.flat2 /\
  neighbours (fun x y => ttype y = TSell ->
                ttype x = TBuy /\ profit y = Some (price y - price x))
             (trades BotDemo.flat2).
Proof.
  assert (Hr : reachable BotDemo.flat2).
  { do 2 apply reach_iteration.
    apply (reach_init (1#10) (2#10) 5 true). reflexivity. }
  split; [exact Hr|].
  apply (sell_profit_and_fixed_entry BotDemo.flat2 Hr).
Defined.

(** The markers carry the instants of the ledger as long as only [run] and
    [execute_trade] act. *)
Lemma markers_match_execute (b b' : LiveTradingBot) (signal : Signal)
  (p : Price) (t : Time) :
  markers_match b -> execute_trade b signal p t = Some b' ->
  markers_match b'.
Proof.
  intros [Hb Hs]. unfold execute_trade.
  destruct signal, (position b) as [[]|]; intros H;
    try (injection H as <-; now split).
  - injection H as <-. split; simpl; rewrite markers_snoc; simpl;
      rewrite ?app_nil_r; congruence.
  - destruct (hold_minutes t (entry_time b)); [|discriminate].
    injection H as <-. split; simpl; rewrite markers_snoc; simpl;
      rewrite ?app_nil_r; congruence.
Qed.

Lemma markers_match_run_iteration (f : Fetch) (b : LiveTradingBot) :
  markers_match b -> markers_match (run_iteration f b).
Proof.
  intros H.
  assert (H1 : markers_match (get_live_data f b)) by (destruct f; exact H).
  unfold run_iteration.
  destruct (last_row _); [|exact H1].
  destruct (calculate_signals _ _ _); [|exact H1].
  destruct (execute_trade _ _ _ _) eqn:He; [|exact H1].
  exact (markers_match_execute _ _ _ _ _ H1 He).
Qed.

(** With one reading of the clock for both the marker and the trade, [stop]
    would keep the markers and the ledger in step. *)
Lemma markers_match_stop_same_instant (n : Time) (b : LiveTradingBot) :
  markers_match b -> markers_match (stop n n b).
Proof.
  intros [Hb Hs]. unfold stop.
  destruct (position b) as [[]|]; [|now split].
  destruct (last_row (data b)); [|now split].
  split; simpl; rewrite markers_snoc; simpl; rewrite ?app_nil_r; congruence.
Qed.

(** C10.  [stop] stores the marker and the trade of its SELL with two
    readings of the clock: after a BUY at 100 and a stop whose readings are
    120 s and 120.000001 s, the sell marker and the SELL of the ledger have
    the same price and different instants. *)
Theorem stop_marker_and_trade_instants_differ :
  let b := stop 120 (120000001 # 1000000) BotDemo.long1 in
  reachable b /\
  buy_signals b = markers TBuy (trades b) /\
  sell_signals b = [(120, 100)] /\
  markers TSell (trades b) = [(120000001 # 1000000, 100)] /\
  sell_signals b <> markers TSell (trades b).
Proof.
  split.
  { apply reach_stop, reach_iteration.
    apply (reach_init (1#10) (2#10) 5 true). reflexivity. }
  repeat split; try reflexivity. discriminate.
Qed.

(** C9, as it stands, fails: the bar of instant 60 that closed the position
    is fetched once more, and the engine buys on it. *)
Lemma refetched_bar_is_bought_again :
  let b := BotDemo.flat2 in
  let rows := [mkBar 0 100; mkBar 60 (998#10)] in
  let b' := run_iteration (Fetched rows) b in
  last_row (data b) = Some (mkBar 60 (998#10)) /\
  last_row rows = Some (mkBar 60 (998#10)) /\
  bar_time (mkBar 60 (998#10)) <= bar_time (mkBar 60 (998#10)) /\
  position b = None /\ position b' = Some LONG /\
  trades b' = trades b ++ [mkTrade TBuy (998#10) 60 None None] /\
  buy_signals b' = buy_signals b ++ [(60, 998#10)] /\
  ~ (position b' = position b /\ trades b' = trades b /\
     buy_signals b' = buy_signals b /\ sell_signals b' = sell_signals b).
Proof.
  repeat split; try reflexivity.
  - apply Qle_refl.
  - intros (H & _). discriminate H.
Qed.

(** C9, amended.  The loop keeps no instant of the last processed bar and
    skips none: an iteration evaluates the last row of whatever frame is
    fetched.  While FLAT that row is bought, whatever its instant; while
    LONG position, ledger and markers stay as they are exactly when the
    signal computed on that row is HOLD; an empty frame changes none of
    them. *)
Theorem every_fetched_bar_is_evaluated (b : LiveTradingBot)
  (rows : list Bar) (bar : Bar) :
  last_row rows = Some bar ->
  let b' := run_iteration (Fetched rows) b in
  (position b = None ->
   position b' = Some LONG /\
   entry_price b' = bar_close bar /\ entry_time b' = Some (bar_time bar) /\
   trades b' =
     trades b ++ [mkTrade TBuy (bar_close bar) (bar_time bar) None None] /\
   buy_signals b' = buy_signals b ++ [(bar_time bar, bar_close bar)]) /\
  (position b = Some LONG ->
   calculate_signals (set_data b rows) (bar_close bar) (bar_time bar)
     = Some HOLD ->
   position b' = position b /\ trades b' = trades b /\
   buy_signals b' = buy_signals b /\ sell_signals b' = sell_signals b) /\
  (forall t0,
      position b = Some LONG -> entry_time b = Some t0 ->
      calculate_signals (set_data b rows) (bar_close bar) (bar_time bar)
        = Some SELL ->
      position b' = None /\
      exists r,
        trades b' =
          trades b ++ [mkTrade TSell (bar_close bar) (bar_time bar)
                               (Some (bar_close bar - entry_price b))
                               (Some r)]) /\
  (let e := run_iteration (Fetched []) b in
   position e = position b /\ trades e = trades b /\
   buy_signals e = buy_signals b /\ sell_signals e = sell_signals b).
Proof.
  intros Hrow. cbv zeta. unfold run_iteration. simpl. rewrite Hrow.
  split; [|split; [|split]].
  - intros Hp. unfold calculate_signals, execute_trade. simpl.
    rewrite Hp. simpl. now repeat split.
  - intros Hp Hs. rewrite Hs. unfold execute_trade. simpl. rewrite Hp.
    now repeat split.
  - intros t0 Hp Ht Hs. rewrite Hs. unfold execute_trade. simpl.
    rewrite Hp, Ht. simpl. split; [reflexivity|]. now eexists.
  - now repeat split.
Qed.

Lemma every_fetched_bar_is_evaluated_witness :
  position (run_iteration (Fetched [mkBar 0 100; mkBar 60 (998#10)])
                          BotDemo.flat2) = Some LONG.
Proof.
  apply (every_fetched_bar_is_evaluated BotDemo.flat2
           [mkBar 0 100; mkBar 60 (998#10)] (mkBar 60 (998#10))
           eq_refl).
  reflexivity.
Defined.

End BotFacts.

(** ** Thresholds *)

Section Thresholds.

Lemma le_iff (a b : Q) : le a b = true <-> a <= b.
Proof. apply Qle_bool_iff. Qed.

Lemma ge_iff (a b : Q) : ge a b = true <-> b <= a.
Proof. apply Qle_bool_iff. Qed.

Lemma le_false_iff (a b : Q) : le a b = false <-> b < a.
Proof.
  unfold le. split; intros H.
  - apply Qnot_le_lt. intros C. apply Qle_bool_iff in C. congruence.
  - destruct (Qle_bool a b) eqn:E; [|reflexivity].
    apply Qle_bool_iff in E. exfalso. exact (Qlt_not_le _ _ H E).
Qed.

Lemma ge_false_iff (a b : Q) : ge a b = false <-> a < b.
Proof. apply le_false_iff. Qed.

Lemma gt_iff (a b : Q) : gt a b = true <-> b < a.
Proof.
  unfold gt. rewrite negb_true_iff. apply le_false_iff.
Qed.

(** With a positive entry price and positive fractions the stop-loss
    threshold lies below the take-profit threshold. *)
Lemma thresholds_apart (E s tp p : Q) :
  0 < E -> 0 < s -> 0 < tp ->
  p <= E * (1 - s) -> ~ E * (1 + tp) <= p.
Proof.
  intros HE Hs Htp H1 H2.
  assert (H3 : 0 < E * s) by (apply Qmult_lt_0_compat; assumption).
  assert (H4 : 0 < E * tp) by (apply Qmult_lt_0_compat; assumption).
  lra.
Qed.

End Thresholds.

(** ** Exits of the engine of [src/bot/trade.py] *)

Module BotExits.
Import Bot.

(** Once neither price threshold is reached the decision is the time test,
    and it sells from the boundary on. *)
Lemma time_exit_decision (b : LiveTradingBot) (p : Price) (t t0 : Time) :
  position b = Some LONG -> entry_time b = Some t0 ->
  stop_loss_hit b p = false -> take_profit_hit b p = false ->
  (calculate_signals b p t = Some SELL <->
   max_hold_duration b <= (t - t0) / 60) /\
  (calculate_signals b p t = Some HOLD <->
   (t - t0) / 60 < max_hold_duration b).
Proof.
  intros Hp Ht Hs Htp. unfold calculate_signals, max_hold_duration.
  rewrite Hp, Hs, Htp, Ht. simpl.
  destruct (ge ((t - t0) / 60) (max_hold_minutes b * interval_minutes b))
    eqn:E.
  - pose proof (proj1 (ge_iff _ _) E) as H.
    split; split; try congruence; try tauto.
    intros C. exfalso. exact (Qlt_not_le _ _ C H).
  - pose proof (proj1 (ge_false_iff _ _) E) as H.
    split; split; try congruence; try tauto.
    intros C. exfalso. exact (Qlt_not_le _ _ H C).
Qed.

(** The reason [execute_trade] records is then "Time Exit". *)
Lemma time_exit_reason (b : LiveTradingBot) (p : Price) :
  stop_loss_hit b p = false -> take_profit_hit b p = false ->
  exit_reason b p = TimeExit.
Proof. intros Hs Ht. unfold exit_reason. now rewrite Ht, Hs. Qed.

(** A close at or below the stop-loss threshold sells, and the reason
    recorded is "Stop Loss", when the entry price and both fractions are
    positive. *)
Lemma stop_loss_recorded (b : LiveTradingBot) (p : Price) (t t0 : Time) :
  0 < entry_price b -> 0 < stop_loss_percent b ->
  0 < take_profit_percent b ->
  position b = Some LONG -> entry_time b = Some t0 ->
  p <= entry_price b * (1 - stop_loss_percent b) ->
  calculate_signals b p t = Some SELL /\
  exists b', execute_trade b SELL p t = Some b' /\
             option_map reason (last_trade (trades b')) =
               Some (Some StopLoss).
Proof.
  intros HE Hs Htp Hp Ht Hle.
  assert (H1 : stop_loss_hit b p = true) by now apply le_iff.
  assert (H2 : take_profit_hit b p = false).
  { apply ge_false_iff. apply Qnot_le_lt.
    now apply (thresholds_apart _ (stop_loss_percent b)). }
  unfold calculate_signals, execute_trade. rewrite Hp, H1, Ht. simpl.
  split; [reflexivity|]. eexists. split; [reflexivity|].
  simpl. rewrite last_trade_snoc. simpl. unfold exit_reason.
  now rewrite H2, H1.
Qed.

(** Under the same conditions the recorded reason is the one the priority
    rule gives for the test that made [calculate_signals] sell. *)
Lemma recorded_reason_is_first_match (b : LiveTradingBot) (p : Price)
  (t t0 : Time) :
  0 < entry_price b -> 0 < stop_loss_percent b ->
  0 < take_profit_percent b ->
  position b = Some LONG -> entry_time b = Some t0 ->
  calculate_signals b p t = Some SELL ->
  Spec.first_match (stop_loss_hit b p) (take_profit_hit b p) false
                   (ge ((t - t0) / 60) (max_hold_duration b))
  = Some (exit_reason b p).
Proof.
  intros HE Hs Htp Hp Ht. unfold calculate_signals, exit_reason.
  rewrite Hp, Ht. simpl. unfold Spec.first_match, max_hold_duration.
  destruct (stop_loss_hit b p) eqn:H1.
  - assert (H2 : take_profit_hit b p = false).
    { apply ge_false_iff. apply Qnot_le_lt.
      apply (thresholds_apart _ (stop_loss_percent b)); try assumption.
      now apply le_iff. }
    now rewrite H2.
  - destruct (take_profit_hit b p); [reflexivity|].
    destruct (ge _ _); [reflexivity|discriminate].
Qed.

End BotExits.

(** ** The engine of [src/Streamlit/bot.py] *)

Module StreamlitFacts.
Import StreamlitBot StreamlitReach.

Lemma streamlit_time_exit_decision (b : LiveTradingBot) (p : Price) (t t0 : Time) :
  position b = Some LONG -> entry_time b = Some t0 ->
  stop_loss_hit b p = false -> take_profit_hit b p = false ->
  (calculate_signals b p t = Some SELL <->
   max_hold_minutes b <= (t - t0) / 60) /\
  (calculate_signals b p t = Some HOLD <->
   (t - t0) / 60 < max_hold_minutes b).
Proof.
  intros Hp Ht Hs Htp. unfold calculate_signals.
  rewrite Hp, Hs, Htp, Ht. simpl.
  destruct (ge ((t - t0) / 60) (max_hold_minutes b)) eqn:E.
  - pose proof (proj1 (ge_iff _ _) E) as H.
    split; split; try congruence; try tauto.
    intros C. exfalso. exact (Qlt_not_le _ _ C H).
  - pose proof (proj1 (ge_false_iff _ _) E) as H.
    split; split; try congruence; try tauto.
    intros C. exfalso. exact (Qlt_not_le _ _ H C).
Qed.

(** The conditional expression has no third case: a SELL that no price
    threshold explains is recorded as "Stop Loss". *)
Lemma reason_without_threshold (b : LiveTradingBot) (p : Price) :
  take_profit_hit b p = false -> exit_reason b p = StopLoss.
Proof. intros H. unfold exit_reason. now rewrite H. Qed.

Lemma streamlit_stop_loss_recorded (b : LiveTradingBot) (p : Price) (t : Time) :
  0 < entry_price b -> 0 < stop_loss_percent b ->
  0 < take_profit_percent b ->
  position b = Some LONG ->
  p <= entry_price b * (1 - stop_loss_percent b) ->
  calculate_signals b p t = Some SELL /\
  option_map reason (last_trade (trades (execute_trade b SELL p t))) =
    Some (Some StopLoss).
Proof.
  intros HE Hs Htp Hp Hle.
  assert (H1 : stop_loss_hit b p = true) by now apply le_iff.
  assert (H2 : take_profit_hit b p = false).
  { apply ge_false_iff. apply Qnot_le_lt.
    now apply (thresholds_apart _ (stop_loss_percent b)). }
  unfold calculate_signals, execute_trade. rewrite Hp, H1. simpl.
  split; [reflexivity|].
  rewrite last_trade_snoc. simpl. unfold exit_reason. now rewrite H2.
Qed.

Lemma streamlit_markers_match_execute (b : LiveTradingBot) (signal : Signal)
  (p : Price) (t : Time) :
  markers_match b -> markers_match (execute_trade b signal p t).
Proof.
  intros [Hb Hs]. unfold execute_trade.
  destruct signal, (position b) as [[]|]; try (now split);
    split; simpl; rewrite markers_snoc; simpl; rewrite ?app_nil_r;
    congruence.
Qed.

(** In [src/Streamlit/bot.py] every marker is appended next to its trade
    with the same instant and price, and [stop] appends neither. *)
Lemma reachable_markers_match (b : LiveTradingBot) :
  reachable b -> markers_match b.
Proof.
  induction 1 as [sl tp mh b Hi | b _ IH | f b b' _ IH Hrun
                 | b signal p t _ IH | b _ IH].
  - injection Hi as <-. now split.
  - exact IH.
  - unfold run_iteration in Hrun.
    assert (H1 : markers_match (get_live_data f b)) by (destruct f; exact IH).
    destruct (last_row _).
    + destruct (calculate_signals _ _ _); [|discriminate].
      injection Hrun as <-. now apply streamlit_markers_match_execute.
    + now injection Hrun as <-.
  - now apply streamlit_markers_match_execute.
  - exact IH.
Qed.

End StreamlitFacts.

(** ** The recorded reason of a SELL *)

(** C1.  [execute_trade] names the reason by testing the thresholds again,
    the take-profit threshold first, instead of keeping the test that made
    [calculate_signals] sell.  In [src/Streamlit/bot.py] a position bought
    at 100 and closed by the time test at 99.95, six minutes later, is
    recorded as "Stop Loss": 99.95 is above the stop-loss threshold 99.9 and
    the priority rule gives "Time Exit".  In [src/bot/trade.py], built with a
    take-profit percentage of -0.2, a close of 99.85 reaches the stop-loss
    threshold 99.9, which makes [calculate_signals] sell, and the SELL is
    recorded as "Take Profit". *)
Theorem recorded_reason_is_recomputed :
  (exists b1 b2,
      StreamlitDemo.long1 = Some b1 /\
      StreamlitBot.stop_loss_hit b1 (9995#100) = false /\
      StreamlitBot.take_profit_hit b1 (9995#100) = false /\
      StreamlitBot.calculate_signals b1 (9995#100) 360 = Some SELL /\
      Spec.first_match
        (StreamlitBot.stop_loss_hit b1 (9995#100))
        (StreamlitBot.take_profit_hit b1 (9995#100)) false
        (ge ((360 - 0) / 60) (StreamlitBot.max_hold_minutes b1))
      = Some TimeExit /\
      StreamlitDemo.then_iteration
        (Fetched [mkBar 0 100; mkBar 360 (9995#100)]) StreamlitDemo.long1
      = Some b2 /\
      map reason (StreamlitBot.trades b2) = [None; Some StopLoss]) /\
  (let b1 := Bot.run_iteration (Fetched [mkBar 0 100])
                               (Bot.new_bot (1#10) (-2#10) 5 true) in
   let b2 := Bot.run_iteration
               (Fetched [mkBar 0 100; mkBar 60 (9985#100)]) b1 in
   Bot.stop_loss_hit b1 (9985#100) = true /\
   Bot.calculate_signals b1 (9985#100) 60 = Some SELL /\
   Spec.first_match
     (Bot.stop_loss_hit b1 (9985#100)) (Bot.take_profit_hit b1 (9985#100))
     false (ge ((60 - 0) / 60) (Bot.max_hold_duration b1))
   = Some StopLoss /\
   map reason (Bot.trades b2) = [None; Some TakeProfit]).
Proof.
  split.
  - eexists. eexists. split; [reflexivity|].
    split; [reflexivity|]. split; [reflexivity|]. split; [reflexivity|].
    split; [reflexivity|]. split; reflexivity.
  - cbv zeta. repeat split; reflexivity.
Qed.

(** C3.  In [src/Streamlit/bot.py] the bar at exactly the boundary, five
    minutes after a BUY at 100 and closing at 100, reaches neither price
    threshold and is sold by the time test; the reason recorded for that
    SELL is "Stop Loss", not "Time Exit". *)
Theorem boundary_time_exit_recorded_as_stop_loss :
  exists b1 b2,
    StreamlitDemo.long1 = Some b1 /\
    StreamlitBot.position b1 = Some LONG /\
    StreamlitBot.entry_time b1 = Some 0 /\
    (300 - 0) / 60 == StreamlitBot.max_hold_minutes b1 /\
    StreamlitBot.stop_loss_hit b1 100 = false /\
    StreamlitBot.take_profit_hit b1 100 = false /\
    StreamlitBot.calculate_signals b1 100 300 = Some SELL /\
    StreamlitDemo.then_iteration
      (Fetched [mkBar 0 100; mkBar 300 100]) StreamlitDemo.long1
    = Some b2 /\
    option_map reason (last_trade (StreamlitBot.trades b2))
    = Some (Some StopLoss).
Proof.
  eexists. eexists. split; [reflexivity|].
  repeat split; reflexivity.
Qed.

(** ** Stopping and constructing *)

(** C6, as it stands, fails: [stop] of [src/Streamlit/bot.py] run on an
    open position appends nothing and leaves the position open. *)
Lemma stop_leaves_position_open :
  exists b,
    StreamlitDemo.long1 = Some b /\
    StreamlitBot.position b = Some LONG /\
    StreamlitBot.trades (StreamlitBot.stop b) = StreamlitBot.trades b /\
    StreamlitBot.position (StreamlitBot.stop b) = Some LONG /\
    ~ (exists t,
          StreamlitBot.trades (StreamlitBot.stop b)
            = StreamlitBot.trades b ++ [t] /\
          ttype t = TSell /\ reason t = Some ManualStop).
Proof.
  eexists. split; [reflexivity|]. repeat split.
  intros (t & H & _). simpl in H. discriminate H.
Qed.

(** C6, amended.  [stop] of [src/bot/trade.py], run while a position is
    open and the last fetched frame has a row, appends one SELL with reason
    "Manual Stop" at the close of that row, with that close less the entry
    price as profit, records one sell marker at that close, closes the
    position and clears the flag; the exit rules play no part.  Run while
    FLAT, or with an empty frame, it changes the flag only.  [stop] of
    [src/Streamlit/bot.py] changes the flag only, in every state. *)
Theorem stop_closes_at_last_fetched_close (b : Bot.LiveTradingBot)
  (n1 n2 : Time) :
  (forall bar,
      Bot.position b = Some LONG -> last_row (Bot.data b) = Some bar ->
      Bot.trades (Bot.stop n1 n2 b) =
        Bot.trades b ++
          [mkTrade TSell (bar_close bar) n2
                   (Some (bar_close bar - Bot.entry_price b))
                   (Some ManualStop)] /\
      Bot.sell_signals (Bot.stop n1 n2 b) =
        Bot.sell_signals b ++ [(n1, bar_close bar)] /\
      Bot.buy_signals (Bot.stop n1 n2 b) = Bot.buy_signals b /\
      Bot.position (Bot.stop n1 n2 b) = None /\
      Bot.is_running (Bot.stop n1 n2 b) = false) /\
  (Bot.position b = None \/ Bot.data b = [] ->
   Bot.stop n1 n2 b = Bot.set_running b false) /\
  (forall sb : StreamlitBot.LiveTradingBot,
      StreamlitBot.trades (StreamlitBot.stop sb) = StreamlitBot.trades sb /\
      StreamlitBot.position (StreamlitBot.stop sb)
        = StreamlitBot.position sb /\
      StreamlitBot.sell_signals (StreamlitBot.stop sb)
        = StreamlitBot.sell_signals sb /\
      StreamlitBot.is_running (StreamlitBot.stop sb) = false).
Proof.
  split; [|split].
  - intros bar Hp Hrow. unfold Bot.stop. rewrite Hp, Hrow. now repeat split.
  - unfold Bot.stop. intros [Hp | Hd].
    + now rewrite Hp.
    + rewrite Hd. simpl. now destruct (Bot.position b) as [[]|].
  - intros sb. now repeat split.
Qed.

Lemma stop_closes_at_last_fetched_close_witness :
  Bot.position (Bot.stop 120 121 BotDemo.long1) = None /\
  Bot.stop 120 121 BotDemo.flat2 = Bot.set_running BotDemo.flat2 false.
Proof.
  split.
  - apply (proj1 (stop_closes_at_last_fetched_close BotDemo.long1 120 121)
             (mkBar 0 100)); reflexivity.
  - apply (proj1 (proj2 (stop_closes_at_last_fetched_close
                           BotDemo.flat2 120 121))).
    left. reflexivity.
Defined.

(** C8, as it stands, fails: a stop loss of -1 %, a take profit of 0 % and
    a holding time of -5 minutes are accepted by both constructors, and the
    engine built from them trades. *)
Lemma nonpositive_configuration_is_accepted :
  Bot.init (-1) 0 (-5) true <> Bot.ConfigurationError /\
  StreamlitBot.init (-1) 0 (-5) <> StreamlitBot.ConfigurationError /\
  Bot.init (-1) 0 (-5) true = Bot.Engine (Bot.new_bot (-1) 0 (-5) true) /\
  Bot.position
    (Bot.run_iteration (Fetched [mkBar 0 100])
                       (Bot.start (Bot.new_bot (-1) 0 (-5) true)))
  = Some LONG.
Proof. repeat split; try discriminate; reflexivity. Qed.

(** C8, amended.  Construction checks nothing and never fails: for every
    stop loss, take profit and holding time, positive or not, [__init__]
    returns an engine that is FLAT, with an empty ledger and no markers,
    not running, holding the two percentages divided by 100; once started
    the engine buys on the first bar it is given. *)
Theorem construction_never_fails (sl tp mh : Q) (one_minute : bool) :
  (exists b,
      Bot.init sl tp mh one_minute = Bot.Engine b /\
      Bot.stop_loss_percent b = sl / 100 /\
      Bot.take_profit_percent b = tp / 100 /\
      Bot.max_hold_minutes b = mh /\
      Bot.position b = None /\ Bot.trades b = [] /\
      Bot.buy_signals b = [] /\ Bot.sell_signals b = [] /\
      Bot.is_running b = false /\
      forall bar,
        Bot.trades (Bot.run_iteration (Fetched [bar]) (Bot.start b)) =
          [mkTrade TBuy (bar_close bar) (bar_time bar) None None]) /\
  (exists b,
      StreamlitBot.init sl tp mh = StreamlitBot.Engine b /\
      StreamlitBot.stop_loss_percent b = sl / 100 /\
      StreamlitBot.take_profit_percent b = tp / 100 /\
      StreamlitBot.max_hold_minutes b = mh /\
      StreamlitBot.position b = None /\ StreamlitBot.trades b = [] /\
      StreamlitBot.is_running b = false /\
      forall bar,
        option_map StreamlitBot.trades
          (StreamlitBot.run_iteration (Fetched [bar]) (StreamlitBot.start b))
        = Some [mkTrade TBuy (bar_close bar) (bar_time bar) None None]).
Proof.
  split; eexists; (split; [reflexivity|]); repeat split.
Qed.

(** ** The backtest strategies *)

Module FixedExitFacts.
Import FixedExit.

(** The chain of [FixedExitStrategy.next] is the priority rule, without a
    trailing stop. *)
Lemma exit_reason_is_first_match (p : Params) (e : Entry) (k : Tick) :
  exit_reason p e k =
  Spec.first_match
    (le (close k) (entry_price e * (1 - stop_loss_percent p)))
    (ge (close k) (entry_price e * (1 + take_profit_percent p)))
    false
    (ge ((datetime k - entry_time e) / 60) (max_hold_minutes p)).
Proof. reflexivity. Qed.

Lemma time_exit_is_last (p : Params) (e : Entry) (k : Tick) :
  exit_reason p e k = Some TimeExit ->
  le (close k) (entry_price e * (1 - stop_loss_percent p)) = false /\
  ge (close k) (entry_price e * (1 + take_profit_percent p)) = false.
Proof.
  unfold exit_reason.
  destruct (le _ _); [discriminate|].
  destruct (ge (close k) _); [discriminate|]. now split.
Qed.

End FixedExitFacts.

Module EnhancedFacts.
Import Enhanced.

(** The price chain of [EnhancedStrategy.next] follows the priority rule;
    the time test that comes after it replaces whatever the chain found. *)
Lemma price_exit_is_first_match (e : Entry) (k : Tick) :
  price_exit e k =
  Spec.first_match (le (close k) (stop_loss e)) (ge (close k) (take_profit e))
                   (le (close k) (trailing_stop e)) false.
Proof.
  unfold price_exit, Spec.first_match.
  now destruct (le (close k) (stop_loss e)), (ge (close k) (take_profit e)),
    (le (close k) (trailing_stop e)).
Qed.

Lemma time_test_overrides (p : Params) (e : Entry) (k : Tick) :
  ge ((datetime k - entry_time e) / 60) (max_hold_minutes p) = true ->
  exit_reason p e k = Some TimeExit.
Proof. intros H. unfold exit_reason. now rewrite H. Qed.

(** C2.  In [EnhancedStrategy.next] the time test is an [if] of its own
    after the [if]/[elif] chain of the price tests.  A position bought at
    100 with the stop loss at 98 meets, sixty minutes later, a close of 97:
    the stop loss matches, the priority rule gives "Stop Loss", and the
    round trip is recorded with "Time Exit". *)
Theorem time_exit_overrides_stop_loss :
  exists s1 e1 s2,
    next EnhancedDemo.params init EnhancedDemo.buy_bar = Some (s1, Some OBuy) /\
    entry s1 = Some e1 /\
    le (close EnhancedDemo.late_low_bar) (stop_loss e1) = true /\
    Spec.first_match
      (le (close EnhancedDemo.late_low_bar) (stop_loss e1))
      (ge (close EnhancedDemo.late_low_bar) (take_profit e1))
      (le (close EnhancedDemo.late_low_bar) (trailing_stop e1))
      (ge ((datetime EnhancedDemo.late_low_bar - entry_time e1) / 60)
          (max_hold_minutes EnhancedDemo.params))
    = Some StopLoss /\
    next EnhancedDemo.params s1 EnhancedDemo.late_low_bar
    = Some (s2, Some OSell) /\
    map rt_reason (trades s2) = [TimeExit].
Proof.
  eexists. eexists. eexists.
  split; [reflexivity|]. split; [reflexivity|]. repeat split.
Qed.

(** Python's [max] keeps its first argument unless the second is larger. *)
Lemma Qmax_keeps_left (a b : Q) : b <= a -> Qmax a b = a.
Proof.
  intros H. unfold Qmax, GenericMinMax.gmax.
  destruct (a ?= b) eqn:E; try reflexivity.
  apply Qlt_alt in E. exfalso. exact (Qlt_not_le _ _ E H).
Qed.

Lemma adjust_trailing_keeps_entry (p : Params) (e : Entry) (k : Tick) :
  entry_price (adjust_trailing p e k) = entry_price e /\
  entry_time (adjust_trailing p e k) = entry_time e /\
  stop_loss (adjust_trailing p e k) = stop_loss e /\
  take_profit (adjust_trailing p e k) = take_profit e.
Proof.
  unfold adjust_trailing. now destruct (_ && _).
Qed.

Lemma adjust_trailing_monotone (p : Params) (e : Entry) (k : Tick) :
  trailing_stop e <= trailing_stop (adjust_trailing p e k).
Proof.
  unfold adjust_trailing. destruct (_ && _); simpl.
  - apply Q.le_max_l.
  - apply Qle_refl.
Qed.

(** Above the entry price the adjustment is the maximum, also on the bars
    where the guard on the old trailing stop keeps the assignment from
    running. *)
Lemma adjust_trailing_above_entry (p : Params) (e : Entry) (k : Tick) :
  0 <= trailing_percent p -> 0 <= entry_price e ->
  entry_price e < close k ->
  trailing_stop (adjust_trailing p e k) =
  Qmax (trailing_stop e) (close k * (1 - trailing_percent p)).
Proof.
  intros Hf HE Hlt. unfold adjust_trailing.
  assert (H1 : gt (close k) (entry_price e) = true) by now apply gt_iff.
  rewrite H1. simpl.
  destruct (gt (close k) (trailing_stop e)) eqn:H2; [reflexivity|].
  symmetry. apply Qmax_keeps_left.
  assert (Hle : close k <= trailing_stop e).
  { unfold gt in H2. apply negb_false_iff in H2. now apply Qle_bool_iff. }
  assert (Hc : 0 <= close k * trailing_percent p).
  { apply Qmult_le_0_compat; [|assumption].
    apply Qlt_le_weak. now apply (Qle_lt_trans _ (entry_price e)). }
  lra.
Qed.

Lemma adjust_trailing_not_above_entry (p : Params) (e : Entry) (k : Tick) :
  ~ entry_price e < close k ->
  adjust_trailing p e k = e.
Proof.
  intros H. unfold adjust_trailing.
  destruct (gt (close k) (entry_price e)) eqn:H1; [|reflexivity].
  apply gt_iff in H1. contradiction.
Qed.

(** A bar with a position held: the entry is adjusted, then the exit
    conditions are read off the adjusted entry. *)
Lemma next_with_position (p : Params) (s : State) (k : Tick) (e : Entry) :
  has_position k = true -> entry s = Some e ->
  exists s',
    next p s k =
      Some (s', match exit_reason p (adjust_trailing p e k) k with
                | Some _ => Some OSell
                | None => None
                end) /\
    entry s' = Some (adjust_trailing p e k).
Proof.
  intros Hp He. unfold next. rewrite Hp, He. simpl.
  destruct (exit_reason p (adjust_trailing p e k) k);
    eexists; split; reflexivity.
Qed.

Lemma long_bars_trailing (p : Params) (ks : list Tick) :
  forall s e,
    Forall (fun j => has_position j = true) ks -> entry s = Some e ->
    exists s' e',
      long_bars p s ks = Some s' /\ entry s' = Some e' /\
      entry_price e' = entry_price e /\
      trailing_stop e <= trailing_stop e'.
Proof.
  induction ks as [|k ks IH]; intros s e Hall He.
  - exists s, e. repeat split; try assumption. apply Qle_refl.
  - inversion Hall as [|? ? Hk Hks]; subst.
    destruct (next_with_position p s k e Hk He) as (s1 & Hn & He1).
    destruct (IH s1 _ Hks He1) as (s' & e' & Hl & He' & HE & Hts).
    exists s', e'. simpl. rewrite Hn. repeat split; try assumption.
    + rewrite HE. apply adjust_trailing_keeps_entry.
    + eapply Qle_trans; [apply adjust_trailing_monotone|exact Hts].
Qed.

(** C5.  With a trailing fraction that is not negative, a buy at a price
    that is not negative sets the trailing stop to the entry price times one
    less the fraction.  On every later bar on which the position is still
    held, [next] first adjusts the trailing stop and then reads the exit
    conditions off the adjusted value: the stop is never below its value on
    the bar before nor below the initial one, it is the maximum of its old
    value and the close times one less the fraction when the close is above
    the entry price, and it is unchanged otherwise; the entry price stays
    the close of the buy bar. *)
Theorem trailing_stop_never_decreases (p : Params) (s0 : State) (k0 : Tick)
  (earlier : list Tick) (k : Tick) :
  0 <= trailing_percent p -> 0 <= close k0 ->
  has_position k0 = false -> buy_condition k0 = true ->
  Forall (fun j => has_position j = true) earlier ->
  has_position k = true ->
  exists s1 e1 sa ea sb eb,
    next p s0 k0 = Some (s1, Some OBuy) /\ entry s1 = Some e1 /\
    entry_price e1 = close k0 /\
    trailing_stop e1 = entry_price e1 * (1 - trailing_percent p) /\
    long_bars p s1 earlier = Some sa /\ entry sa = Some ea /\
    next p sa k =
      Some (sb, match exit_reason p eb k with
                | Some _ => Some OSell
                | None => None
                end) /\
    entry sb = Some eb /\
    entry_price ea = close k0 /\ entry_price eb = close k0 /\
    trailing_stop e1 <= trailing_stop ea /\
    trailing_stop ea <= trailing_stop eb /\
    (close k0 < close k ->
     trailing_stop eb =
       Qmax (trailing_stop ea) (close k * (1 - trailing_percent p))) /\
    (~ close k0 < close k -> trailing_stop eb = trailing_stop ea).
Proof.
  intros Hf HE Hk0 Hbuy Hall Hk.
  set (e1 := open_entry p k0).
  set (s1 := mkState (Some e1)
                     (buy_signals s0 ++ [(entry_time e1, entry_price e1)])
                     (sell_signals s0) (trades s0)).
  destruct (long_bars_trailing p earlier s1 e1 Hall eq_refl)
    as (sa & ea & Hl & Hea & HEa & Hts).
  destruct (next_with_position p sa k ea Hk Hea) as (sb & Hn & Heb).
  exists s1, e1, sa, ea, sb, (adjust_trailing p ea k).
  split; [unfold next; now rewrite Hk0, Hbuy|].
  split; [reflexivity|]. split; [reflexivity|]. split; [reflexivity|].
  split; [exact Hl|]. split; [exact Hea|]. split; [exact Hn|].
  split; [exact Heb|]. split; [exact HEa|].
  split; [now rewrite (proj1 (adjust_trailing_keeps_entry p ea k))|].
  split; [exact Hts|]. split; [apply adjust_trailing_monotone|].
  split.
  - intros Hlt. apply adjust_trailing_above_entry; rewrite ?HEa; assumption.
  - intros Hn'. rewrite adjust_trailing_not_above_entry; [reflexivity|].
    now rewrite HEa.
Qed.

Lemma trailing_stop_never_decreases_witness :
  exists s1 e1 sa ea sb eb,
    next EnhancedDemo.params init EnhancedDemo.buy_bar
      = Some (s1, Some OBuy) /\
    entry s1 = Some e1 /\
    entry_price e1 = close EnhancedDemo.buy_bar /\
    trailing_stop e1 =
      entry_price e1 * (1 - trailing_percent EnhancedDemo.params) /\
    long_bars EnhancedDemo.params s1 [EnhancedDemo.rising_bar] = Some sa /\
    entry sa = Some ea /\
    next EnhancedDemo.params sa EnhancedDemo.falling_bar =
      Some (sb, match exit_reason EnhancedDemo.params eb
                        EnhancedDemo.falling_bar with
                | Some _ => Some OSell
                | None => None
                end) /\
    entry sb = Some eb /\
    entry_price ea = close EnhancedDemo.buy_bar /\
    entry_price eb = close EnhancedDemo.buy_bar /\
    trailing_stop e1 <= trailing_stop ea /\
    trailing_stop ea <= trailing_stop eb /\
    (close EnhancedDemo.buy_bar < close EnhancedDemo.falling_bar ->
     trailing_stop eb =
       Qmax (trailing_stop ea)
            (close EnhancedDemo.falling_bar *
             (1 - trailing_percent EnhancedDemo.params))) /\
    (~ close EnhancedDemo.buy_bar < close EnhancedDemo.falling_bar ->
     trailing_stop eb = trailing_stop ea).
Proof.
  apply (trailing_stop_never_decreases EnhancedDemo.params init
           EnhancedDemo.buy_bar [EnhancedDemo.rising_bar]
           EnhancedDemo.falling_bar).
  - discriminate.
  - discriminate.
  - reflexivity.
  - reflexivity.
  - repeat constructor.
  - reflexivity.
Defined.

End EnhancedFacts.

(** * Further properties *)

(** ** The engine of [src/Streamlit/bot.py]: ledger, markers, exceptions *)

Module StreamlitLedger.
Import StreamlitBot StreamlitReach StreamlitSteps.

Lemma streamlit_transition_execute (b : LiveTradingBot) (signal : Signal)
  (p : Price) (t : Time) :
  transition b (execute_trade b signal p t).
Proof.
  unfold execute_trade.
  destruct signal, (position b) as [[]|] eqn:Hp; try now apply tr_same.
  - now apply (tr_open _ _ p t).
  - now eapply (tr_close _ _ p t).
Qed.

Lemma streamlit_transition_after_fetch (f : Fetch) (b b' : LiveTradingBot) :
  transition (get_live_data f b) b' -> transition b b'.
Proof.
  destruct f; simpl; [easy|].
  intros [| |]; [apply tr_same|eapply tr_open|eapply tr_close];
    simpl in *; eauto.
Qed.

Lemma streamlit_transition_run_iteration (f : Fetch) (b b' : LiveTradingBot) :
  run_iteration f b = Some b' -> transition b b'.
Proof.
  unfold run_iteration. intros H. apply (streamlit_transition_after_fetch f).
  destruct (last_row _).
  - destruct (calculate_signals _ _ _); [|discriminate].
    injection H as <-. apply streamlit_transition_execute.
  - injection H as <-. now apply tr_same.
Qed.

Lemma reachable_by_transitions (P : LiveTradingBot -> Prop) :
  (forall sl tp mh, P (new_bot sl tp mh)) ->
  (forall b b', transition b b' -> P b -> P b') ->
  forall b, reachable b -> P b.
Proof.
  intros Hinit Hstep b Hr.
  induction Hr as [sl tp mh b Hi | b _ IH | f b b' _ IH Hrun
                  | b signal p t _ IH | b _ IH].
  - injection Hi as <-. apply Hinit.
  - apply (Hstep b); [now apply tr_same|exact IH].
  - exact (Hstep _ _ (streamlit_transition_run_iteration _ _ _ Hrun) IH).
  - exact (Hstep _ _ (streamlit_transition_execute b signal p t) IH).
  - apply (Hstep b); [now apply tr_same|exact IH].
Qed.

Lemma streamlit_reachable_ledger_invariant (b : LiveTradingBot) :
  reachable b -> ledger_invariant b.
Proof.
  apply reachable_by_transitions.
  - intros. split; simpl; [reflexivity|split; discriminate|reflexivity].
  - clear b. intros b b' T [Ha Hs Hc].
    destruct T as [Hp _ _ Ht | p t Hp Hp' _ _ Ht | p t r Hp Hp' _ _ Ht].
    + split; rewrite ?Hp, ?Ht; assumption.
    + assert (Hn : ends_in_buy (trades b) = false).
      { destruct (ends_in_buy (trades b)) eqn:E; [|reflexivity].
        assert (position b = Some LONG) by now apply Hs. congruence. }
      split; rewrite Ht, ?Hp'.
      * rewrite alternates_snoc, Ha. simpl. unfold expected_next.
        unfold ends_in_buy in Hn.
        destruct (last_type (trades b)) as [[]|];
          [discriminate| |]; reflexivity.
      * rewrite ends_in_buy_snoc. simpl. tauto.
      * rewrite !count_type_snoc, Hc, Hp. simpl. lia.
    + assert (Hy : ends_in_buy (trades b) = true) by now apply Hs.
      split; rewrite Ht, ?Hp'.
      * rewrite alternates_snoc, Ha. simpl. unfold expected_next.
        unfold ends_in_buy in Hy.
        destruct (last_type (trades b)) as [[]|];
          [reflexivity| |]; discriminate.
      * rewrite ends_in_buy_snoc. simpl. split; discriminate.
      * rewrite !count_type_snoc, Hc, Hp. simpl. lia.
Qed.

Lemma streamlit_reachable_entry_invariant (b : LiveTradingBot) :
  reachable b -> entry_invariant b.
Proof.
  apply reachable_by_transitions.
  - intros. split; simpl; [discriminate|]. intros [|i] x y; discriminate.
  - clear b. intros b b' T [He Hn].
    destruct T as [Hp Hep Het Ht | p t Hp Hp' Hep Het Ht
                  | p t r Hp Hp' Hep Het Ht].
    + split; rewrite ?Hp, ?Hep, ?Het, ?Ht; assumption.
    + split; rewrite Ht.
      * intros _. rewrite last_trade_snoc. eexists. split; [reflexivity|].
        simpl. now rewrite Hep, Het.
      * apply neighbours_snoc; [assumption|]. intros x _ [=].
    + split; rewrite Ht.
      * congruence.
      * apply neighbours_snoc; [assumption|].
        intros x Hx _. simpl.
        destruct (He Hp) as (buy & Hb & _ & Hprice & _).
        rewrite Hb in Hx. injection Hx as <-. now rewrite Hprice.
Qed.

Lemma streamlit_reachable_samples :
  reachable StreamlitSamples.bought /\ reachable StreamlitSamples.sold.
Proof.
  assert (H0 : reachable StreamlitDemo.flat0)
    by (apply (reach_init (1#10) (2#10) 5); reflexivity).
  assert (H1 : reachable StreamlitSamples.bought)
    by (apply (reach_iteration (Fetched [mkBar 0 100]) _ _ H0); reflexivity).
  split; [exact H1|].
  apply (reach_iteration (Fetched [mkBar 0 100; mkBar 60 (1003#10)]) _ _ H1).
  reflexivity.
Qed.

(** X1.  In every state an engine of [src/Streamlit/bot.py] can reach, the
    ledger starts with a BUY, no two neighbours have the same type, the
    position is LONG exactly when the ledger ends in a BUY, and the BUYs
    outnumber the SELLs by one when a position is open and by none
    otherwise. *)
Theorem streamlit_ledger_alternates (b : LiveTradingBot) :
  reachable b ->
  (forall x, nth_error (trades b) 0 = Some x -> ttype x = TBuy) /\
  neighbours (fun x y => ttype x <> ttype y) (trades b) /\
  (position b = Some LONG <-> ends_in_buy (trades b) = true) /\
  count_type TBuy (trades b) =
    (count_type TSell (trades b) +
       match position b with Some LONG => 1 | None => 0 end)%nat.
Proof.
  intros Hr. destruct (streamlit_reachable_ledger_invariant b Hr) as [Ha Hs Hc].
  split; [intros x Hx; exact (alternates_head _ _ _ Ha Hx)|].
  split; [|split; assumption].
  intros i x y Hx Hy E.
  pose proof (alternates_neighbours _ _ _ _ _ Ha Hx Hy) as Hf.
  rewrite E in Hf. now destruct (ttype y).
Qed.

Lemma streamlit_ledger_alternates_witness :
  position StreamlitSamples.sold = Some LONG <->
  ends_in_buy (trades StreamlitSamples.sold) = true.
Proof.
  apply (streamlit_ledger_alternates StreamlitSamples.sold
           (proj2 streamlit_reachable_samples)).
Defined.

(** X2.  In every reachable state of [src/Streamlit/bot.py] each SELL of
    the ledger comes right after a BUY and its profit is its own price less
    the price of that BUY; while a position is open the last entry of the
    ledger is the BUY that opened it, and [entry_price] and [entry_time]
    are its price and instant. *)
Theorem streamlit_sell_profit (b : LiveTradingBot) :
  reachable b ->
  neighbours (fun x y => ttype y = TSell ->
                ttype x = TBuy /\ profit y = Some (price y - price x))
             (trades b) /\
  (position b = Some LONG ->
   exists buy, last_trade (trades b) = Some buy /\ ttype buy = TBuy /\
               entry_price b = price buy /\
               entry_time b = Some (timestamp buy)).
Proof.
  intros Hr.
  destruct (streamlit_reachable_entry_invariant b Hr) as [He Hn].
  destruct (streamlit_reachable_ledger_invariant b Hr) as [Ha _ _].
  split; [|exact He].
  intros i x y Hx Hy Hs. split; [|exact (Hn i x y Hx Hy Hs)].
  pose proof (alternates_neighbours _ _ _ _ _ Ha Hx Hy) as Hf.
  now rewrite Hf, Hs.
Qed.

Lemma streamlit_sell_profit_witness :
  neighbours (fun x y => ttype y = TSell ->
                ttype x = TBuy /\ profit y = Some (price y - price x))
             (trades StreamlitSamples.sold).
Proof.
  apply (streamlit_sell_profit StreamlitSamples.sold
           (proj2 streamlit_reachable_samples)).
Defined.

(** X3.  In every reachable state of [src/Streamlit/bot.py] the buy markers
    are the (instant, price) pairs of the BUYs of the ledger, in order, and
    the sell markers those of the SELLs; so there are as many sell markers
    as completed round trips. *)
Theorem streamlit_markers_are_the_ledger (b : LiveTradingBot) :
  reachable b ->
  buy_signals b = markers TBuy (trades b) /\
  sell_signals b = markers TSell (trades b) /\
  length (sell_signals b) = count_type TSell (trades b).
Proof.
  intros Hr. destruct (StreamlitFacts.reachable_markers_match b Hr) as [Hb Hs].
  split; [exact Hb|]. split; [exact Hs|].
  rewrite Hs. unfold markers, count_type. apply length_map.
Qed.

Lemma streamlit_markers_are_the_ledger_witness :
  sell_signals StreamlitSamples.sold =
  markers TSell (trades StreamlitSamples.sold).
Proof.
  apply (streamlit_markers_are_the_ledger StreamlitSamples.sold
           (proj2 streamlit_reachable_samples)).
Defined.

(** X4.  The loop of [src/Streamlit/bot.py] has no [try]; files and the
    network aside, the one exception its body can raise is the subtraction
    of a [None] entry time.  From a reachable state no iteration raises it,
    whatever is fetched: [entry_time] is set whenever the position is
    LONG. *)
Theorem streamlit_loop_never_raises (b : LiveTradingBot) (f : Fetch) :
  reachable b ->
  (position b = Some LONG -> entry_time b <> None) /\
  exists b', run_iteration f b = Some b'.
Proof.
  intros Hr. destruct (streamlit_reachable_entry_invariant b Hr) as [He _].
  assert (Ht : position b = Some LONG -> entry_time b <> None).
  { intros Hp. destruct (He Hp) as (buy & _ & _ & _ & E). congruence. }
  split; [exact Ht|].
  unfold run_iteration.
  assert (H1 : position (get_live_data f b) = position b /\
               entry_time (get_live_data f b) = entry_time b)
    by (destruct f; now split).
  destruct H1 as [Hp1 Ht1].
  destruct (last_row _); [|now eexists].
  unfold calculate_signals. rewrite Hp1, Ht1.
  destruct (position b) as [[]|]; [|now eexists].
  destruct (stop_loss_hit _ _); [now eexists|].
  destruct (take_profit_hit _ _); [now eexists|].
  destruct (entry_time b); [|now destruct Ht].
  simpl. destruct (ge _ _); now eexists.
Qed.

Lemma streamlit_loop_never_raises_witness :
  exists b',
    run_iteration (Fetched [mkBar 0 100; mkBar 60 100])
                  StreamlitSamples.bought = Some b'.
Proof.
  apply (streamlit_loop_never_raises StreamlitSamples.bought
           (Fetched [mkBar 0 100; mkBar 60 100])
           (proj1 streamlit_reachable_samples)).
Defined.

End StreamlitLedger.

(** ** The engine of [src/bot/trade.py]: exceptions, markers, exits *)

Module BotLedger.
Import Bot BotReach BotSteps BotReasons.

Lemma reachable_demo :
  reachable BotDemo.flat0 /\ reachable BotDemo.long1 /\
  reachable BotDemo.flat2.
Proof.
  assert (H0 : reachable BotDemo.flat0)
    by (apply (reach_init (1#10) (2#10) 5 true); reflexivity).
  split; [exact H0|]. split; [|apply reach_iteration];
    apply reach_iteration; exact H0.
Qed.

(** X5.  Files aside, the decision code of [src/bot/trade.py] can raise
    only by subtracting a [None] entry time.  In a reachable state neither
    [calculate_signals] nor [execute_trade] raises, for any price, instant
    and signal, so the [except] of [run] is never entered on their
    account. *)
Theorem bot_decision_never_raises (b : LiveTradingBot) (signal : Signal)
  (p : Price) (t : Time) :
  reachable b ->
  (exists s, calculate_signals b p t = Some s) /\
  (exists b', execute_trade b signal p t = Some b').
Proof.
  intros Hr. destruct (BotFacts.reachable_entry_invariant b Hr) as [He _].
  unfold calculate_signals, execute_trade.
  destruct (position b) as [[]|] eqn:Hp.
  - destruct (He eq_refl) as (buy & _ & _ & _ & Ht). rewrite Ht. simpl.
    split.
    + destruct (stop_loss_hit b p); [now eexists|].
      destruct (take_profit_hit b p); [now eexists|].
      destruct (ge _ _); now eexists.
    + destruct signal; now eexists.
  - split; [now eexists|]. destruct signal; now eexists.
Qed.

Lemma bot_decision_never_raises_witness :
  exists b', execute_trade BotDemo.long1 SELL 101 60 = Some b'.
Proof.
  apply (bot_decision_never_raises BotDemo.long1 SELL 101 60
           (proj1 (proj2 reachable_demo))).
Defined.

(** X6.  In every reachable state of [src/bot/trade.py] the buy markers are
    the (instant, price) pairs of the BUYs of the ledger, in order; there
    is one sell marker per SELL of the ledger, in order and with its
    price. *)
Theorem bot_markers_follow_the_ledger (b : LiveTradingBot) :
  reachable b ->
  buy_signals b = markers TBuy (trades b) /\
  map snd (sell_signals b) = map snd (markers TSell (trades b)) /\
  length (sell_signals b) = count_type TSell (trades b).
Proof.
  intros Hr. destruct (BotFacts.reachable_signal_invariant b Hr) as [Hb Hs].
  split; [exact Hb|]. split; [exact Hs|].
  rewrite <- (length_map snd (sell_signals b)), Hs, length_map.
  unfold markers, count_type. apply length_map.
Qed.

Lemma bot_markers_follow_the_ledger_witness :
  buy_signals BotDemo.flat2 = markers TBuy (trades BotDemo.flat2).
Proof.
  apply (bot_markers_follow_the_ledger BotDemo.flat2
           (proj2 (proj2 reachable_demo))).
Defined.







End BotLedger.

(** ** The loop of [src/bot/trade.py], one iteration at a time *)

Module BotRuns.
Import Bot.








(** X11.  When the provider raises, [get_live_data] keeps the frame of the
    iteration before and [run] evaluates its last row again: the iteration
    is the one a second fetch of the same frame would give.  So a failed
    fetch while FLAT, with a frame left over, buys at the close of that
    stale row. *)
Theorem failed_fetch_trades_on_the_stale_frame (b : LiveTradingBot)
  (bar : Bar) :
  last_row (data b) = Some bar ->
  run_iteration FetchError b = run_iteration (Fetched (data b)) b /\
  (position b = None ->
   position (run_iteration FetchError b) = Some LONG /\
   entry_price (run_iteration FetchError b) = bar_close bar /\
   trades (run_iteration FetchError b) =
     trades b ++ [mkTrade TBuy (bar_close bar) (bar_time bar) None None]).
Proof.
  intros Hrow. split.
  - destruct b. reflexivity.
  - intros Hp. unfold run_iteration. simpl. rewrite Hrow.
    unfold calculate_signals, execute_trade. rewrite Hp. now repeat split.
Qed.

Lemma failed_fetch_trades_on_the_stale_frame_witness :
  position (run_iteration FetchError BotDemo.flat2) = Some LONG.
Proof.
  apply (failed_fetch_trades_on_the_stale_frame BotDemo.flat2
           (mkBar 60 (998#10)) eq_refl).
  reflexivity.
Defined.

End BotRuns.

(** ** The chart of [src/bot/trade.py] *)

Module BotChartFacts.
Import Bot BotChart.

Lemma tail_snoc {A : Type} (n : nat) (l : list A) (x : A) :
  tail (S n) (l ++ [x]) = tail n l ++ [x].
Proof.
  unfold tail. rewrite length_app. simpl.
  replace (length l + 1 - S n)%nat with (length l - n)%nat by lia.
  rewrite skipn_app.
  replace (length l - n - length l)%nat with 0%nat by lia. reflexivity.
Qed.

Lemma tail_suffix {A : Type} (n : nat) (l : list A) :
  exists older, l = older ++ tail n l.
Proof.
  exists (firstn (length l - n) l). unfold tail.
  symmetry. apply firstn_skipn.
Qed.

Lemma tail_length {A : Type} (n : nat) (l : list A) :
  length (tail n l) = Nat.min n (length l).
Proof. unfold tail. rewrite length_skipn. lia. Qed.

Lemma last_row_snoc (pre : list Bar) (bar : Bar) :
  last_row (pre ++ [bar]) = Some bar.
Proof.
  induction pre as [|a pre IH]; [reflexivity|].
  simpl. destruct (pre ++ [bar]) eqn:E; [destruct pre; discriminate|exact IH].
Qed.

Lemma last_row_inv (rows : list Bar) (bar : Bar) :
  last_row rows = Some bar -> exists pre, rows = pre ++ [bar].
Proof.
  induction rows as [|a rows IH]; [discriminate|].
  destruct rows as [|b rows].
  - intros [= <-]. now exists [].
  - intros H. destruct (IH H) as [pre Hpre]. exists (a :: pre).
    simpl. now rewrite <- Hpre.
Qed.

Lemma set_at_index (t : Time) (p : Price) (s : Series) :
  map fst (set_at t p s) = map fst s.
Proof.
  unfold set_at. rewrite map_map. apply map_ext.
  intros r. cbv beta. now destruct (Qeq_bool _ _).
Qed.

(** Drawing markers never changes the index of a series. *)
Lemma fold_signals_index (signals : list (Time * Price)) :
  forall s,
    map fst (fold_left (fun s tp => if in_index (fst tp) s
                                    then set_at (fst tp) (snd tp) s else s)
                       signals s) = map fst s.
Proof.
  induction signals as [|x signals IH]; intros s; [reflexivity|].
  simpl. rewrite IH. destruct (in_index (fst x) s); [|reflexivity].
  apply set_at_index.
Qed.

Lemma plot_signals_index (signals : list (Time * Price))
  (plot_data : list Bar) :
  map fst (plot_signals signals plot_data) = map bar_time plot_data.
Proof.
  unfold plot_signals. rewrite fold_signals_index.
  unfold empty_series. rewrite map_map. simpl. apply map_id.
Qed.

Lemma series_ends_at (s : Series) (index : list Time) (t : Time) :
  map fst s = index ++ [t] -> exists s' v, s = s' ++ [(t, v)].
Proof.
  intros H. apply map_eq_app in H as (s1 & s2 & -> & _ & H2).
  destruct s2 as [|[t' v] [|? ?]]; try discriminate.
  injection H2 as ->. now exists s1, v.
Qed.

(** X12.  [plot_candlestick] draws nothing exactly when the frame is empty.
    What it draws has, in both marker series, one entry per candle, under
    the instant of that candle; the candles are the last fifty rows of the
    frame, in order, or all of them when there are fewer. *)
Theorem chart_series_match_the_candles (b : LiveTradingBot) :
  match plot_candlestick b with
  | None => data b = []
  | Some c =>
      data b <> [] /\
      map fst (buy_plot c) = map bar_time (candles c) /\
      map fst (sell_plot c) = map bar_time (candles c) /\
      length (candles c) = Nat.min 50 (length (data b)) /\
      exists older, data b = older ++ candles c
  end.
Proof.
  unfold plot_candlestick. destruct (data b) as [|r rows] eqn:E;
    [reflexivity|].
  rewrite <- E. cbn [candles buy_plot sell_plot].
  split; [rewrite E; discriminate|].
  split; [apply plot_signals_index|].
  split; [apply plot_signals_index|].
  split; [apply tail_length|apply tail_suffix].
Qed.

(** X13.  The chart drawn at the end of an iteration that bought shows that
    BUY: the last candle is the row bought on, and the buy series holds the
    purchase price under it, so the buy markers are handed to the plot. *)
Theorem fresh_buy_is_on_the_chart (b : LiveTradingBot) (rows : list Bar)
  (bar : Bar) :
  position b = None -> last_row rows = Some bar ->
  exists c s,
    plot_candlestick (run_iteration (Fetched rows) b) = Some c /\
    last_row (candles c) = Some bar /\
    buy_plot c = s ++ [(bar_time bar, Some (bar_close bar))] /\
    In BuyMarker (addplots c).
Proof.
  intros Hp Hrow.
  assert (E : run_iteration (Fetched rows) b =
              mkBot (stop_loss_percent b) (take_profit_percent b)
                    (max_hold_minutes b) (interval_minutes b)
                    (Some LONG) (bar_close bar) (Some (bar_time bar)) rows
                    (buy_signals b ++ [(bar_time bar, bar_close bar)])
                    (sell_signals b)
                    (trades b ++
                       [mkTrade TBuy (bar_close bar) (bar_time bar)
                                None None])
                    (is_running b)).
  { unfold run_iteration. simpl. rewrite Hrow.
    unfold calculate_signals, execute_trade. simpl. now rewrite Hp. }
  rewrite E. destruct (last_row_inv rows bar Hrow) as [pre ->].
  unfold plot_candlestick. simpl data.
  destruct (pre ++ [bar]) eqn:Erows; [destruct pre; discriminate|].
  rewrite <- Erows. clear Erows. simpl buy_signals. simpl sell_signals.
  change 50%nat with (S 49). rewrite tail_snoc.
  set (pd := tail 49 pre ++ [bar]).
  assert (Hbuy : exists s,
             plot_signals (buy_signals b ++ [(bar_time bar, bar_close bar)])
                          pd
             = s ++ [(bar_time bar, Some (bar_close bar))]).
  { unfold plot_signals. change 10%nat with (S 9). rewrite tail_snoc.
    rewrite fold_left_app. simpl.
    set (s0 := fold_left _ (tail 9 (buy_signals b)) _).
    assert (Hidx : map fst s0 = map bar_time (tail 49 pre) ++ [bar_time bar]).
    { subst s0. rewrite fold_signals_index. unfold empty_series, pd.
      rewrite map_map. simpl. rewrite map_id, map_app. reflexivity. }
    destruct (series_ends_at _ _ _ Hidx) as (s' & v & ->).
    assert (Hq : Qeq_bool (bar_time bar) (bar_time bar) = true)
      by (apply Qeq_bool_iff; reflexivity).
    assert (Hin : in_index (bar_time bar) (s' ++ [(bar_time bar, v)]) = true).
    { unfold in_index. rewrite existsb_app. simpl. rewrite Hq.
      now rewrite orb_true_r. }
    rewrite Hin. exists (set_at (bar_time bar) (bar_close bar) s').
    unfold set_at. rewrite map_app. simpl. now rewrite Hq. }
  destruct Hbuy as [s Hs]. eexists. exists s.
  split; [reflexivity|]. simpl.
  split; [apply last_row_snoc|]. split; [exact Hs|].
  rewrite Hs. apply in_or_app. left.
  unfold notna_any. rewrite existsb_app. simpl.
  rewrite orb_true_r. now left.
Qed.

Lemma fresh_buy_is_on_the_chart_witness :
  exists c s,
    plot_candlestick (run_iteration (Fetched [mkBar 0 100]) BotDemo.flat0)
    = Some c /\
    last_row (candles c) = Some (mkBar 0 100) /\
    buy_plot c = s ++ [(bar_time (mkBar 0 100),
                        Some (bar_close (mkBar 0 100)))] /\
    In BuyMarker (addplots c).
Proof.
  apply (fresh_buy_is_on_the_chart BotDemo.flat0 [mkBar 0 100]
           (mkBar 0 100)); reflexivity.
Defined.

(** X14.  Only the last ten markers of a list are ever drawn: once ten
    newer markers are recorded, the series drawn is the same whatever the
    older markers are, also when their bars are among the candles shown. *)
Theorem only_the_last_ten_markers_are_drawn (older recent : list (Time * Price))
  (plot_data : list Bar) :
  length recent = 10%nat ->
  plot_signals (older ++ recent) plot_data = plot_signals recent plot_data.
Proof.
  intros H. unfold plot_signals, tail. rewrite length_app, H.
  replace (length older + 10 - 10)%nat with (length older) by lia.
  rewrite skipn_app, skipn_all.
  replace (length older - length older)%nat with 0%nat by lia.
  reflexivity.
Qed.

Lemma only_the_last_ten_markers_are_drawn_witness :
  plot_signals ([(0, 100)] ++ repeat (60, 101) 10) [mkBar 0 100; mkBar 60 101]
  = plot_signals (repeat (60, 101) 10) [mkBar 0 100; mkBar 60 101].
Proof.
  apply (only_the_last_ten_markers_are_drawn [(0, 100)] (repeat (60, 101) 10)
           [mkBar 0 100; mkBar 60 101]).
  reflexivity.
Defined.

End BotChartFacts.

(** ** Backtests of [FixedExitStrategy] ([src/backtest/backtrader_test.py]) *)

Module FixedExitRunFacts.
Import FixedExit FixedExitRun.

Lemma next_flat (p : Params) (s : State) (k : Tick) :
  has_position k = false ->
  next p s k =
  Some (mkState (Some (mkEntry (close k) (datetime k))) (trades s),
        Some OBuy).
Proof. intros H. unfold next. now rewrite H. Qed.

Lemma next_held (p : Params) (s : State) (k : Tick) (e : Entry) :
  has_position k = true -> entry s = Some e ->
  exists s' o, next p s k = Some (s', o) /\ entry s' = Some e /\
    (trades s' = trades s \/
     exists r, exit_reason p e k = Some r /\
       trades s' = trades s ++
         [mkRoundTrip (entry_time e) (entry_price e)
                      (datetime k) (close k) r]).
Proof.
  intros Hk He. unfold next. rewrite Hk, He. simpl.
  destruct (exit_reason p e k) as [r|] eqn:Er.
  - eexists. eexists. split; [reflexivity|]. split; [reflexivity|].
    right. now exists r.
  - eexists. eexists. split; [reflexivity|]. split; [exact He|]. now left.
Qed.

Lemma run_with_entry (p : Params) (ks : list Tick) :
  forall s, entry s <> None -> exists s', run p s ks = Some s'.
Proof.
  induction ks as [|k ks IH]; intros s He; [now exists s|].
  simpl. destruct (has_position k) eqn:Hk.
  - destruct (entry s) as [e|] eqn:E; [|now destruct He].
    destruct (next_held p s k e Hk E) as (s' & o & Hn & He' & _).
    rewrite Hn. apply IH. congruence.
  - rewrite (next_flat p s k Hk). apply IH. discriminate.
Qed.

(** X15.  A backtest never raises when its first bar finds no position, as
    Backtrader starts: every later bar with a position held finds the entry
    price and time the first bar has set.  Called first on a bar with a
    position held, [next] raises on the [None] entry time. *)
Theorem fixed_exit_backtest_never_raises (p : Params) (k0 : Tick)
  (ks : list Tick) :
  (has_position k0 = false -> exists s, run p init (k0 :: ks) = Some s) /\
  (has_position k0 = true -> run p init (k0 :: ks) = None).
Proof.
  split; intros H0; simpl.
  - rewrite (next_flat p init k0 H0). apply run_with_entry. discriminate.
  - unfold next. now rewrite H0.
Qed.

Lemma fixed_exit_backtest_never_raises_witness :
  exists s,
    run (mkParams (1#1000) (2#1000) 5) init
        [mkTick false 100 0 0 0 0 0; mkTick true (998#10) 60 0 0 0 0]
    = Some s.
Proof.
  apply (fixed_exit_backtest_never_raises (mkParams (1#1000) (2#1000) 5)
           (mkTick false 100 0 0 0 0 0)
           [mkTick true (998#10) 60 0 0 0 0]).
  reflexivity.
Defined.





End FixedExitRunFacts.

(** ** The backtest page ([src/live_trading_bot_streamlit.py]) *)

Module FixedExitPageFacts.
Import FixedExitPage.

(** What a call of [next] that does not raise does. *)
Lemma next_cases (p : Params) (s s' : State) (k : Tick) (o : option Order) :
  next p s k = Some (s', o) ->
  (has_position k = false /\
   entry s' = Some (mkEntry (close k) (datetime k)) /\
   trades s' = trades s /\ sell_signals s' = sell_signals s /\
   buy_signals s' = buy_signals s ++ [buy_marker k]) \/
  (has_position k = true /\ entry s' = entry s /\
   buy_signals s' = buy_signals s /\
   (trades s' = trades s /\ sell_signals s' = sell_signals s \/
    exists e r,
      entry s = Some e /\ exit_reason p e k = Some r /\
      trades s' = trades s ++
        [mkRoundTrip (entry_time e) (entry_price e)
                     (datetime k) (close k) r] /\
      sell_signals s' = sell_signals s ++ [(datetime k, close k)])).
Proof.
  unfold next. destruct (has_position k); simpl.
  - destruct (entry s) as [e|] eqn:E; [|discriminate].
    destruct (exit_reason p e k) as [r|] eqn:Er; intros [= <- <-].
    + right. simpl. split; [reflexivity|]. split; [reflexivity|].
      split; [reflexivity|]. right. exists e, r. now repeat split.
    + right. split; [reflexivity|]. split; [exact E|].
      split; [reflexivity|]. now left.
  - intros [= <- <-]. left. now repeat split.
Qed.

Lemma run_markers (p : Params) (ks : list Tick) :
  forall s s',
    run p s ks = Some s' ->
    sell_signals s = map sell_marker (trades s) ->
    (forall e, entry s = Some e ->
               In (entry_time e, entry_price e) (buy_signals s)) ->
    Forall (fun t => In (buy_time t, buy_price t) (buy_signals s))
           (trades s) ->
    sell_signals s' = map sell_marker (trades s') /\
    buy_signals s' = buy_signals s ++ map buy_marker (filter flat ks) /\
    Forall (fun t => In (buy_time t, buy_price t) (buy_signals s'))
           (trades s').
Proof.
  induction ks as [|k ks IH]; intros s s' Hrun Hs He Ht.
  - injection Hrun as <-. now rewrite app_nil_r.
  - simpl in Hrun. destruct (next p s k) as [[s1 o]|] eqn:Hn;
      [|discriminate].
    destruct (next_cases p s s1 k o Hn)
      as [(Hk & He1 & Ht1 & Hs1 & Hb1) | (Hk & He1 & Hb1 & Hcase)].
    + destruct (IH s1 s' Hrun) as (R1 & R2 & R3).
      * now rewrite Hs1, Ht1.
      * intros e. rewrite He1, Hb1. intros [= <-]. simpl.
        apply in_or_app. right. now left.
      * rewrite Ht1, Hb1. eapply Forall_impl; [|exact Ht].
        intros t Hin. apply in_or_app. now left.
      * split; [exact R1|]. split; [|exact R3].
        rewrite R2, Hb1. simpl. unfold flat at 2. rewrite Hk. simpl.
        now rewrite <- app_assoc.
    + destruct (IH s1 s' Hrun) as (R1 & R2 & R3).
      * destruct Hcase as [(-> & ->) | (e & r & _ & _ & -> & ->)];
          [exact Hs|]. rewrite map_app, Hs. reflexivity.
      * rewrite He1, Hb1. exact He.
      * rewrite Hb1.
        destruct Hcase as [(-> & _) | (e & r & E & _ & -> & _)]; [exact Ht|].
        apply Forall_app. split; [exact Ht|].
        constructor; [|constructor]. simpl. now apply He.
      * split; [exact R1|]. split; [|exact R3].
        rewrite R2, Hb1. simpl. unfold flat at 2. now rewrite Hk.
Qed.

(** X17.  After any backtest of the page's strategy the sell markers are
    the (instant, price) pairs of the sales of the recorded round trips, in
    order, so the page's trade count is the number of sell markers; the buy
    markers are the bars of the feed that found no position, in order; and
    every round trip was bought at one of the buy markers. *)
Theorem page_markers_match_the_trades (p : Params) (ks : list Tick)
  (s : State) :
  run p init ks = Some s ->
  sell_signals s = map sell_marker (trades s) /\
  total_trades s = length (sell_signals s) /\
  buy_signals s = map buy_marker (filter flat ks) /\
  Forall (fun t => In (buy_time t, buy_price t) (buy_signals s)) (trades s).
Proof.
  intros Hrun.
  destruct (run_markers p ks init s Hrun) as (R1 & R2 & R3);
    try reflexivity; try discriminate; [constructor|].
  split; [exact R1|]. split; [|split; assumption].
  unfold total_trades. now rewrite R1, length_map.
Qed.

Lemma page_markers_match_the_trades_witness :
  sell_signals
    (mkState (Some (mkEntry 100 0))
             [mkRoundTrip 0 100 60 (998#10) StopLoss]
             [(0, 100)] [(60, 998#10)])
  = map sell_marker [mkRoundTrip 0 100 60 (998#10) StopLoss].
Proof.
  apply (page_markers_match_the_trades (mkParams (1#1000) (2#1000) 5)
           [mkTick false 100 0 0 0 0 0; mkTick true (998#10) 60 0 0 0 0]
           (mkState (Some (mkEntry 100 0))
                    [mkRoundTrip 0 100 60 (998#10) StopLoss]
                    [(0, 100)] [(60, 998#10)])).
  reflexivity.
Defined.

Lemma sum_of_losses (l : list Q) :
  forall acc, Forall (fun x => x <= 0) l -> fold_left Qplus l acc <= acc.
Proof.
  induction l as [|x l IH]; intros acc H; [apply Qle_refl|].
  inversion H as [|? ? Hx Hl]; subst. simpl.
  eapply Qle_trans; [apply (IH _ Hl)|]. lra.
Qed.

Lemma run_losses (p : Params) (ks : list Tick) :
  0 <= stop_loss_percent p ->
  Forall (fun k => 0 <= close k) ks ->
  forall s s',
    run p s ks = Some s' ->
    (forall e, entry s = Some e -> 0 <= entry_price e) ->
    Forall (fun t => rt_reason t = StopLoss -> sell_price t <= buy_price t)
           (trades s) ->
    Forall (fun t => rt_reason t = StopLoss -> sell_price t <= buy_price t)
           (trades s').
Proof.
  intros Hsl Hks. induction Hks as [|k ks Hk _ IH]; intros s s' Hrun He Ht.
  - now injection Hrun as <-.
  - simpl in Hrun. destruct (next p s k) as [[s1 o]|] eqn:Hn;
      [|discriminate].
    destruct (next_cases p s s1 k o Hn)
      as [(_ & He1 & Ht1 & _) | (_ & He1 & _ & Hcase)];
      apply (IH s1 s' Hrun).
    + intros e. rewrite He1. now intros [= <-].
    + now rewrite Ht1.
    + now rewrite He1.
    + destruct Hcase as [(-> & _) | (e & r & E & Hr & -> & _)]; [exact Ht|].
      apply Forall_app. split; [exact Ht|]. constructor; [|constructor].
      simpl. intros ->. unfold exit_reason in Hr.
      destruct (le (close k) _) eqn:E1.
      * apply le_iff in E1.
        assert (0 <= entry_price e * stop_loss_percent p)
          by (apply Qmult_le_0_compat; auto).
        lra.
      * destruct (ge (close k) _); [discriminate|].
        destruct (ge _ _); discriminate.
Qed.

(** X18.  With a stop-loss fraction that is not negative and a feed whose
    closes are not negative, a round trip recorded as "Stop Loss" never
    sold above its buy price; so the total profit the page shows for a
    backtest all of whose round trips ended by "Stop Loss" is not
    positive. *)
Theorem page_total_of_stop_losses_is_no_gain (p : Params) (ks : list Tick)
  (s : State) :
  0 <= stop_loss_percent p ->
  Forall (fun k => 0 <= close k) ks ->
  run p init ks = Some s ->
  Forall (fun t => rt_reason t = StopLoss -> sell_price t <= buy_price t)
         (trades s) /\
  (Forall (fun t => rt_reason t = StopLoss) (trades s) ->
   total_profit s <= 0).
Proof.
  intros Hsl Hks Hrun.
  assert (H : Forall (fun t => rt_reason t = StopLoss ->
                               sell_price t <= buy_price t) (trades s)).
  { apply (run_losses p ks Hsl Hks init s Hrun); [discriminate|constructor]. }
  split; [exact H|]. intros Hall. unfold total_profit.
  apply sum_of_losses. apply Forall_map.
  rewrite Forall_forall in *. intros t Hin.
  specialize (H t Hin (Hall t Hin)). lra.
Qed.

Lemma page_total_of_stop_losses_is_no_gain_witness :
  total_profit
    (mkState (Some (mkEntry 100 0))
             [mkRoundTrip 0 100 60 (998#10) StopLoss]
             [(0, 100)] [(60, 998#10)]) <= 0.
Proof.
  apply (page_total_of_stop_losses_is_no_gain
           (mkParams (1#1000) (2#1000) 5)
           [mkTick false 100 0 0 0 0 0; mkTick true (998#10) 60 0 0 0 0]
           (mkState (Some (mkEntry 100 0))
                    [mkRoundTrip 0 100 60 (998#10) StopLoss]
                    [(0, 100)] [(60, 998#10)])).
  - discriminate.
  - repeat constructor; discriminate.
  - reflexivity.
  - repeat constructor.
Defined.

End FixedExitPageFacts.

(** ** Backtests of [EnhancedStrategy] *)

Module EnhancedRunFacts.
Import Enhanced.

(** What a call of [next] that does not raise does to the records. *)
Lemma next_records (p : Params) (s s' : State) (k : Tick)
  (o : option Order) :
  next p s k = Some (s', o) ->
  (has_position k = false /\ trades s' = trades s /\
   sell_signals s' = sell_signals s /\
   (s' = s \/
    entry s' = Some (open_entry p k) /\
    buy_signals s' = buy_signals s ++ [buy_marker k])) \/
  (has_position k = true /\ buy_signals s' = buy_signals s /\
   exists e,
     entry s = Some e /\ entry s' = Some (adjust_trailing p e k) /\
     (exit_reason p (adjust_trailing p e k) k = None /\
      trades s' = trades s /\ sell_signals s' = sell_signals s \/
      exists r,
        exit_reason p (adjust_trailing p e k) k = Some r /\
        trades s' = trades s ++
          [mkRoundTrip (entry_time e) (entry_price e)
                       (datetime k) (close k) r] /\
        sell_signals s' = sell_signals s ++ [(datetime k, close k)])).
Proof.
  unfold next. destruct (has_position k); simpl.
  - destruct (entry s) as [e|] eqn:E; [|discriminate].
    destruct (EnhancedFacts.adjust_trailing_keeps_entry p e k)
      as (HE & HT & _).
    destruct (exit_reason p (adjust_trailing p e k) k) as [r|] eqn:Er;
      intros [= <- <-]; right; (split; [reflexivity|]);
      (split; [reflexivity|]); exists e; (split; [reflexivity|]);
      (split; [reflexivity|]).
    + right. exists r. simpl. rewrite HE, HT. now repeat split.
    + left. now repeat split.
  - destruct (buy_condition k); intros [= <- <-]; left;
      (split; [reflexivity|]); (split; [reflexivity|]);
      (split; [reflexivity|]).
    + right. now split.
    + now left.
Qed.

Lemma long_bars_records (p : Params) (ks : list Tick) :
  forall s s',
    long_bars p s ks = Some s' ->
    sell_signals s = map sell_marker (trades s) ->
    (forall e, entry s = Some e ->
               In (entry_time e, entry_price e) (buy_signals s)) ->
    Forall (fun t => In (purchase_marker t) (buy_signals s)) (trades s) ->
    sell_signals s' = map sell_marker (trades s') /\
    Forall (fun t => In (purchase_marker t) (buy_signals s')) (trades s').
Proof.
  induction ks as [|k ks IH]; intros s s' Hrun Hs He Ht.
  - injection Hrun as <-. now split.
  - simpl in Hrun. destruct (next p s k) as [[s1 o]|] eqn:Hn;
      [|discriminate].
    apply (IH s1 s' Hrun);
      destruct (next_records p s s1 k o Hn)
        as [(_ & Ht1 & Hs1 & [-> | (He1 & Hb1)])
           | (_ & Hb1 & e & E & He1 & Hcase)]; try assumption.
    + now rewrite Hs1, Ht1.
    + destruct Hcase as [(_ & -> & ->) | (r & _ & -> & ->)]; [exact Hs|].
      rewrite map_app, Hs. reflexivity.
    + intros e'. rewrite He1, Hb1. intros [= <-]. simpl.
      apply in_or_app. right. now left.
    + intros e'. rewrite He1, Hb1. intros [= <-].
      destruct (EnhancedFacts.adjust_trailing_keeps_entry p e k)
        as (-> & -> & _).
      now apply He.
    + rewrite Ht1, Hb1. eapply Forall_impl; [|exact Ht].
      intros t Hin. apply in_or_app. now left.
    + rewrite Hb1.
      destruct Hcase as [(_ & -> & _) | (r & _ & -> & _)]; [exact Ht|].
      apply Forall_app. split; [exact Ht|].
      constructor; [|constructor]. now apply He.
Qed.

(** X19.  After any backtest of [EnhancedStrategy] the sell markers are the
    (instant, price) pairs of the sales of the recorded round trips, in
    order, and every round trip was bought at one of the buy markers. *)
Theorem enhanced_markers_match_the_trades (p : Params) (ks : list Tick)
  (s : State) :
  long_bars p init ks = Some s ->
  sell_signals s = map sell_marker (trades s) /\
  length (trades s) = length (sell_signals s) /\
  Forall (fun t => In (purchase_marker t) (buy_signals s)) (trades s).
Proof.
  intros Hrun.
  destruct (long_bars_records p ks init s Hrun) as (R1 & R2);
    try reflexivity; try discriminate; [constructor|].
  split; [exact R1|]. split; [|exact R2].
  now rewrite R1, length_map.
Qed.

Lemma enhanced_markers_match_the_trades_witness :
  sell_signals EnhancedSamples.late_exit =
  map sell_marker (trades EnhancedSamples.late_exit).
Proof.
  apply (enhanced_markers_match_the_trades EnhancedDemo.params
           [EnhancedDemo.buy_bar; EnhancedDemo.late_low_bar]
           EnhancedSamples.late_exit).
  reflexivity.
Defined.



End EnhancedRunFacts.

(** ** [EnhancedStrategy] on a market that does not move *)

Module EnhancedLevels.
Import Enhanced.

Lemma long_bars_levels (p : Params) (ks : list Tick) :
  forall s e,
    Forall (fun j => has_position j = true) ks -> entry s = Some e ->
    exists s' e',
      long_bars p s ks = Some s' /\ entry s' = Some e' /\
      stop_loss e' = stop_loss e /\ take_profit e' = take_profit e.
Proof.
  induction ks as [|k ks IH]; intros s e Hall He.
  - now exists s, e.
  - inversion Hall as [|? ? Hk Hks]; subst.
    destruct (EnhancedFacts.next_with_position p s k e Hk He)
      as (s1 & Hn & He1).
    destruct (IH s1 _ Hks He1) as (s' & e' & Hl & He' & HS & HT).
    exists s', e'. simpl. rewrite Hn.
    destruct (EnhancedFacts.adjust_trailing_keeps_entry p e k)
      as (_ & _ & HS1 & HT1).
    repeat split; congruence.
Qed.

(** X21.  When the ATR times its multiplier is zero on the bar that buys,
    the stop loss and the take profit both sit on the entry price, and
    every bar that still holds the position places a sell order, whatever
    its close. *)
Theorem zero_atr_sells_on_every_held_bar (p : Params) (s0 : State)
  (k0 : Tick) (earlier : list Tick) (k : Tick) :
  has_position k0 = false -> buy_condition k0 = true ->
  atr k0 * atr_multiplier p == 0 ->
  Forall (fun j => has_position j = true) earlier ->
  has_position k = true ->
  exists s1 e1 sa sb,
    next p s0 k0 = Some (s1, Some OBuy) /\ entry s1 = Some e1 /\
    stop_loss e1 == entry_price e1 /\ take_profit e1 == entry_price e1 /\
    long_bars p s1 earlier = Some sa /\
    next p sa k = Some (sb, Some OSell).
Proof.
  intros Hk0 Hbuy Hz Hall Hk.
  set (e1 := open_entry p k0).
  set (s1 := mkState (Some e1)
                     (buy_signals s0 ++ [(entry_time e1, entry_price e1)])
                     (sell_signals s0) (trades s0)).
  destruct (long_bars_levels p earlier s1 e1 Hall eq_refl)
    as (sa & ea & Hl & Hea & HS & HT).
  destruct (EnhancedFacts.next_with_position p sa k ea Hk Hea)
    as (sb & Hn & _).
  assert (HS1 : stop_loss e1 == entry_price e1)
    by (simpl; rewrite Hz; ring).
  assert (HT1 : take_profit e1 == entry_price e1)
    by (simpl; rewrite Hz; ring).
  exists s1, e1, sa, sb.
  split; [unfold next; now rewrite Hk0, Hbuy|].
  split; [reflexivity|]. split; [exact HS1|]. split; [exact HT1|].
  split; [exact Hl|]. rewrite Hn. clear Hn.
  assert (Hex : exists r, exit_reason p (adjust_trailing p ea k) k = Some r).
  { unfold exit_reason. destruct (ge _ (max_hold_minutes p)); [now eexists|].
    unfold price_exit.
    destruct (EnhancedFacts.adjust_trailing_keeps_entry p ea k)
      as (_ & _ & -> & ->).
    rewrite HS, HT.
    destruct (le (close k) (stop_loss e1)) eqn:E1; [now eexists|].
    apply le_false_iff in E1.
    assert (E2 : ge (close k) (take_profit e1) = true).
    { apply ge_iff. rewrite HT1. rewrite HS1 in E1.
      now apply Qlt_le_weak. }
    rewrite E2. now eexists. }
  destruct Hex as [r ->]. reflexivity.
Qed.

Lemma zero_atr_sells_on_every_held_bar_witness :
  exists s1 e1 sa sb,
    next EnhancedDemo.params init (mkTick false 100 0 11 10 25 0)
      = Some (s1, Some OBuy) /\
    entry s1 = Some e1 /\
    stop_loss e1 == entry_price e1 /\ take_profit e1 == entry_price e1 /\
    long_bars EnhancedDemo.params s1 [] = Some sa /\
    next EnhancedDemo.params sa (mkTick true 100 60 11 10 50 0)
      = Some (sb, Some OSell).
Proof.
  apply (zero_atr_sells_on_every_held_bar EnhancedDemo.params init
           (mkTick false 100 0 11 10 25 0) []
           (mkTick true 100 60 11 10 50 0));
    try reflexivity. constructor.
Defined.

End EnhancedLevels.

(** ** The chart of a backtest ([plot_trades]) *)

Module PlotTradesFacts.
Import PlotTrades.





End PlotTradesFacts.
